(** * Course filter component: model and verified properties

    A shallow embedding of [src/js/components/courseFilter.js] (class
    [CourseFilter]).  The component holds a list of course cards, an object
    mapping filter dimensions to selected values, and the list of cards that
    are currently shown.

    Modelling conventions.
    - JavaScript strings are [string]s over ASCII; [toLowerCase] folds the
      letters A-Z and [trim] removes the ASCII white space characters.
    - The [filters] object and the [dataset] of a card are finite maps from
      names to strings.  An assignment to the name [__proto__] is modelled
      as what it is on an ordinary object, a write that stores nothing.
      Reading a [dataset] under another name inherited from
      [Object.prototype] (such as [toString]) is outside the model:
      statements about arbitrary dimension names exclude these names by
      [inheritedName].  Filter values that are not strings are outside the
      model too.
    - Rendering (styles, timers, announcements) does not feed back into
      [filters], [courses] or [filteredCourses]; the component is modelled
      first without it, the search box being kept because
      [clearAllFilters] writes it, and the page is added afterwards.  The
      custom event is left out; the random ids of [setupAccessibility]
      come from a random source kept with the page. *)

From Stdlib Require Import Ascii String List Bool Arith ZArith Lia.
From stdpp Require Import base option list strings pretty gmap fin_maps.

Local Open Scope string_scope.

(** ** JavaScript string primitives used by the component *)

Module JsString.

Definition lowerChar (a : ascii) : ascii :=
  let n := nat_of_ascii a in
  if (65 <=? n)%nat && (n <=? 90)%nat then ascii_of_nat (n + 32) else a.

(** [s.toLowerCase()] *)
Fixpoint toLowerCase (s : string) : string :=
  match s with
  | EmptyString => EmptyString
  | String a r => String (lowerChar a) (toLowerCase r)
  end.

(** White space removed by [trim]: TAB, LF, VT, FF, CR and SPACE. *)
Definition isSpace (a : ascii) : bool :=
  let n := nat_of_ascii a in
  ((9 <=? n)%nat && (n <=? 13)%nat) || (n =? 32)%nat.

Fixpoint trimStart (s : string) : string :=
  match s with
  | EmptyString => EmptyString
  | String a r => if isSpace a then trimStart r else s
  end.

Fixpoint trimEnd (s : string) : string :=
  match s with
  | EmptyString => EmptyString
  | String a r =>
      match trimEnd r with
      | EmptyString => if isSpace a then EmptyString else String a EmptyString
      | r' => String a r'
      end
  end.

(** [s.trim()] *)
Definition trim (s : string) : string := trimEnd (trimStart s).

(** [s.includes(t)]: [t] occurs in [s] at some position. *)
Fixpoint includes (s t : string) : bool :=
  String.prefix t s ||
  match s with
  | EmptyString => false
  | String _ r => includes r t
  end.

(** [s.split(sep)] for a one-character separator; never the empty list. *)
Fixpoint split (sep : ascii) (s : string) : list string :=
  match s with
  | EmptyString => [EmptyString]
  | String a r =>
      if Ascii.eqb a sep then EmptyString :: split sep r
      else match split sep r with
           | p :: ps => String a p :: ps
           | [] => [String a EmptyString]
           end
  end.

(** [arr.includes(v)] on an array of strings. *)
Definition arrayIncludes (arr : list string) (v : string) : bool :=
  existsb (String.eqb v) arr.

(** Truthiness of a value that is a string, [undefined] or [null]. *)
Definition truthy (v : option string) : bool :=
  match v with
  | Some s => negb (s =? "")
  | None => false
  end.

(** [a || b] on such values. *)
Definition or_else (a b : option string) : option string :=
  if truthy a then a else b.

(** [a || ''] *)
Definition or_empty (a : option string) : string :=
  match or_else a (Some "") with
  | Some s => s
  | None => ""
  end.

End JsString.

Import JsString.

(** ** Data model *)

(** A course card: the DOM element as far as the component reads it.
    [dataset] is [course.dataset], [attributes] is what [getAttribute]
    reads, [title] and [description] are the [textContent] of the first
    [.course-title] and [.course-description] descendant, if there is one. *)
Record Course := mkCourse {
  dataset : gmap string string;
  attributes : gmap string string;
  title : option string;
  description : option string
}.

Definition getAttribute (course : Course) (name : string) : option string :=
  attributes course !! name.

(** A card written as [<div class="course-card" data-k1="v1" ...>], for
    lower-case attribute names without hyphens: [dataset] and the attribute
    list then show the same values. *)
Definition card (data : list (string * string))
    (ttl descr : option string) : Course :=
  {| dataset := list_to_map data;
     attributes := list_to_map (map (λ kv, ("data-" ++ kv.1, kv.2)) data);
     title := ttl;
     description := descr |}.

(** The component instance.  [searchInput] is the value of the
    [.course-search-input] element when the page has one. *)
Record CourseFilter := mkCourseFilter {
  filters : gmap string string;
  courses : list Course;
  filteredCourses : list Course;
  searchInput : option string
}.

(** The object literal assigned to [this.filters] in the constructor. *)
Definition initialFilters : gmap string string :=
  <["level" := "all"]> (<["language" := "all"]> (<["format" := "all"]>
  (<["schedule" := "all"]> (<["price" := "all"]> ∅)))).

(** The five dimensions the component is documented to support. *)
Definition recognized (name : string) : bool :=
  bool_decide (name ∈ ["level"; "language"; "format"; "schedule"; "price"]).

(** The property names every object inherits from [Object.prototype]. *)
Definition inheritedName (name : string) : bool :=
  bool_decide
    (name ∈ ["__proto__"; "constructor"; "hasOwnProperty"; "isPrototypeOf";
             "propertyIsEnumerable"; "toLocaleString"; "toString"; "valueOf";
             "__defineGetter__"; "__defineSetter__"; "__lookupGetter__";
             "__lookupSetter__"]).

(** [obj[key] = value] for a string [value] on an ordinary object: the key
    [__proto__] reaches the setter inherited from [Object.prototype], which
    ignores a value that is neither an object nor [null]; any other key
    becomes, or overwrites, an own property. *)
Definition assignProperty (key value : string) (obj : gmap string string)
    : gmap string string :=
  if key =? "__proto__" then obj else <[key := value]> obj.

(** ** Operations *)

(** [course.dataset[filterType] || course.getAttribute(`data-${filterType}`)] *)
Definition courseValue (course : Course) (filterType : string) : option string :=
  or_else (dataset course !! filterType)
          (getAttribute course ("data-" ++ filterType)).

(** The callback given to [every] in [applyFilters], for one entry. *)
Definition entryMatches (course : Course) (filterType filterValue : string) : bool :=
  if filterValue =? "all" then true
  else
    let cv := courseValue course filterType in
    match cv with
    | Some s =>
        if truthy cv && includes s "," then
          arrayIncludes (map trim (split "," s)) filterValue
        else s =? filterValue
    | None => false
    end.

(** The callback given to [filter] in [applyFilters]. *)
Definition courseMatches (fs : gmap string string) (course : Course) : bool :=
  forallb (λ kv, entryMatches course kv.1 kv.2) (map_to_list fs).

Definition applyFilters (cf : CourseFilter) : CourseFilter :=
  {| filters := filters cf;
     courses := courses cf;
     filteredCourses := List.filter (courseMatches (filters cf)) (courses cf);
     searchInput := searchInput cf |}.

Definition updateFilter (type value : string) (cf : CourseFilter) : CourseFilter :=
  applyFilters
    {| filters := assignProperty type value (filters cf);
       courses := courses cf;
       filteredCourses := filteredCourses cf;
       searchInput := searchInput cf |}.

(** [Object.assign(this.filters, newFilters)] followed by [applyFilters]:
    every entry of [newFilters] is assigned, so that an entry named
    [__proto__] stores nothing. *)
Definition setFilters (newFilters : gmap string string) (cf : CourseFilter)
    : CourseFilter :=
  applyFilters
    {| filters := delete "__proto__" newFilters ∪ filters cf;
       courses := courses cf;
       filteredCourses := filteredCourses cf;
       searchInput := searchInput cf |}.

(** [handleFilterClick]: [filterType] and [filterValue] are the button's
    [data-filter] and [data-value]; a missing or empty one ends the call. *)
Definition handleFilterClick (filterType filterValue : option string)
    (cf : CourseFilter) : CourseFilter :=
  match filterType, filterValue with
  | Some t, Some v =>
      if truthy filterType && truthy filterValue then updateFilter t v cf else cf
  | _, _ => cf
  end.

(** The callback given to [filter] in [handleSearch]. *)
Definition searchMatches (term : string) (course : Course) : bool :=
  let ttl := or_empty (toLowerCase <$> title course) in
  let descr := or_empty (toLowerCase <$> description course) in
  let tags := or_empty (toLowerCase <$> dataset course !! "tags") in
  includes ttl term || includes descr term || includes tags term.

Definition handleSearch (searchTerm : string) (cf : CourseFilter) : CourseFilter :=
  let term := trim (toLowerCase searchTerm) in
  if term =? "" then applyFilters cf
  else
    {| filters := filters cf;
       courses := courses cf;
       filteredCourses := List.filter (searchMatches term) (filteredCourses cf);
       searchInput := searchInput cf |}.

(** The [input] listener bound in [bindEvents] when the page has a search
    box: the box holds what was typed and [handleSearch] receives it. *)
Definition searchInputEvent (typed : string) (cf : CourseFilter) : CourseFilter :=
  match searchInput cf with
  | Some _ =>
      handleSearch typed
        {| filters := filters cf;
           courses := courses cf;
           filteredCourses := filteredCourses cf;
           searchInput := Some typed |}
  | None => cf
  end.

(** [loadCourses]: [page] is the result of the document query. *)
Definition loadCourses (page : list Course) (cf : CourseFilter) : CourseFilter :=
  {| filters := filters cf;
     courses := page;
     filteredCourses := page;
     searchInput := searchInput cf |}.

Definition clearAllFilters (cf : CourseFilter) : CourseFilter :=
  {| filters := (λ _, "all") <$> filters cf;
     courses := courses cf;
     filteredCourses := courses cf;
     searchInput := (λ _, "") <$> searchInput cf |}.

Definition destroy (cf : CourseFilter) : CourseFilter :=
  {| filters := filters cf;
     courses := [];
     filteredCourses := [];
     searchInput := searchInput cf |}.

(** [new CourseFilter()] on a page with the cards [page] and, possibly, a
    search box holding [box]. *)
Definition construct (page : list Course) (box : option string) : CourseFilter :=
  loadCourses page
    {| filters := initialFilters;
       courses := [];
       filteredCourses := [];
       searchInput := box |}.

(** The user-visible operations, and runs of them from a fresh instance. *)
Inductive Op :=
| CallLoadCourses (page : list Course)
| CallUpdateFilter (type value : string)
| CallSetFilters (newFilters : gmap string string)
| ClickFilter (filterType filterValue : option string)
| TypeSearch (typed : string)
| CallHandleSearch (searchTerm : string)
| ClickClear
| CallDestroy.

Definition step (cf : CourseFilter) (op : Op) : CourseFilter :=
  match op with
  | CallLoadCourses page => loadCourses page cf
  | CallUpdateFilter type value => updateFilter type value cf
  | CallSetFilters newFilters => setFilters newFilters cf
  | ClickFilter filterType filterValue => handleFilterClick filterType filterValue cf
  | TypeSearch typed => searchInputEvent typed cf
  | CallHandleSearch searchTerm => handleSearch searchTerm cf
  | ClickClear => clearAllFilters cf
  | CallDestroy => destroy cf
  end.

Definition run (ops : list Op) (cf : CourseFilter) : CourseFilter :=
  fold_left step ops cf.

(** ** The specification's reading of the state *)

(** The search term in force: what the search box holds, normalised the way
    [handleSearch] normalises its argument; empty without a search box. *)
Definition currentTerm (cf : CourseFilter) : string :=
  trim (toLowerCase (or_empty (searchInput cf))).

(** [t] occurs in [s]. *)
Definition occursIn (t s : string) : Prop :=
  ∃ pre post : string, s = pre ++ t ++ post.

(** The item matches the search term, in the specification's words: an
    empty term matches everything, any other term has to occur in the
    lower-cased title, description or tags. *)
Definition matchesSearchTerm (term : string) (c : Course) : Prop :=
  term = "" ∨
  occursIn term (or_empty (toLowerCase <$> title c)) ∨
  occursIn term (or_empty (toLowerCase <$> description c)) ∨
  occursIn term (or_empty (toLowerCase <$> dataset c !! "tags")).

(** One dimension's predicate as the specification words it: the value is
    "all", or the attribute is comma-separated and the value is among its
    trimmed pieces, or the attribute equals the value. *)
Definition specEntry (c : Course) (filterType filterValue : string) : Prop :=
  filterValue = "all" ∨
  (∃ s, courseValue c filterType = Some s ∧ includes s "," = true ∧
        In filterValue (map trim (split "," s))) ∨
  courseValue c filterType = Some filterValue.

(** The same with the third case limited to attributes without a comma,
    which is the order in which [applyFilters] tests them. *)
Definition codeEntry (c : Course) (filterType filterValue : string) : Prop :=
  filterValue = "all" ∨
  (∃ s, courseValue c filterType = Some s ∧ includes s "," = true ∧
        In filterValue (map trim (split "," s))) ∨
  (courseValue c filterType = Some filterValue ∧
   includes filterValue "," = false).

Definition matchesFilterState (fs : gmap string string) (c : Course) : Prop :=
  ∀ k v, fs !! k = Some v → specEntry c k v.

(** The item has no value for the dimension: the attribute is missing or
    empty. *)
Definition noValue (c : Course) (filterType : string) : Prop :=
  courseValue c filterType = None ∨ courseValue c filterType = Some "".

(** ** Auxiliary definitions *)

(** [pieces.join(sep)], used to state what [split] returns. *)
Fixpoint join (sep : ascii) (pieces : list string) : string :=
  match pieces with
  | [] => ""
  | [p] => p
  | p :: ps => p ++ String sep (join sep ps)
  end.

(** Every character of [s] is white space. *)
Fixpoint allSpace (s : string) : bool :=
  match s with
  | EmptyString => true
  | String a r => isSpace a && allSpace r
  end.

(** The last character of [s], if any, is white space. *)
Fixpoint endsWithSpace (s : string) : bool :=
  match s with
  | EmptyString => false
  | String a EmptyString => isSpace a
  | String _ r => endsWithSpace r
  end.

#[global] Instance Course_eq_dec : EqDecision Course.
Proof. solve_decision. Defined.

(** The invariant maintained by every operation. *)
Definition subsequenceInv (cf : CourseFilter) : Prop :=
  filteredCourses cf `sublist_of` courses cf.

(** ** Sample pages *)

Module Sample.

Definition businessEnglish : Course :=
  card [("level", "beginner"); ("tags", "english,business")]
       (Some "Business English") (Some "Meetings and e-mail").

Definition spanishTravel : Course :=
  card [("level", "beginner")] (Some "Spanish for Travel") None.

Definition germanExam : Course :=
  card [("level", "advanced")] (Some "German Exam Training") None.

Definition page : list Course := [businessEnglish; spanishTravel; germanExam].

(** A card whose level lists two values, and one whose level is empty. *)
Definition twoLevels : Course := card [("level", "a,b")] None None.
Definition emptyLevel : Course := card [("level", "")] None None.
Definition tagged : Course := card [("tags", "english,business")] None None.
Definition mixedLevels : Course :=
  card [("level", "beginner, advanced")] (Some "Conversation Club") None.

End Sample.

(** ** Keyboard navigation ([handleFilterKeydown]) *)

(** [a % b] on integers: the sign follows the dividend, and a zero divisor
    gives [NaN], here [None]. *)
Definition jsRemainder (a b : Z) : option Z :=
  if (b =? 0)%Z then None else Some (Z.rem a b).

(** What a key press on a filter button leads to. *)
Inductive KeyOutcome :=
| KeyIgnored
| KeyFocus (index : Z)
| KeyTypeError.

(** [buttons[targetIndex].focus()] for an array of [len] buttons: an index
    outside the array reads [undefined], whose [focus] cannot be called. *)
Definition focusButton (len : Z) (targetIndex : option Z) : KeyOutcome :=
  match targetIndex with
  | Some i => if (0 <=? i)%Z && (i <? len)%Z then KeyFocus i else KeyTypeError
  | None => KeyTypeError
  end.

(** [hasGroup] tells whether the button has a [.filter-group] ancestor,
    [len] is the number of filter buttons in that group and [currentIndex]
    the position of the button among them ([indexOf], so -1 if absent). *)
Definition handleFilterKeydown (hasGroup : bool) (key : string)
    (currentIndex len : Z) : KeyOutcome :=
  if negb hasGroup then KeyIgnored
  else if (key =? "ArrowRight") || (key =? "ArrowDown") then
    focusButton len (jsRemainder (currentIndex + 1) len)
  else if (key =? "ArrowLeft") || (key =? "ArrowUp") then
    focusButton len (jsRemainder (currentIndex - 1 + len) len)
  else if key =? "Home" then focusButton len (Some 0%Z)
  else if key =? "End" then focusButton len (Some (len - 1)%Z)
  else KeyIgnored.

(** ** Debouncing ([debounce]) *)

Section Debounce.

Context {A S : Type}.

(** The wrapped function, as an action on the state of the program. *)
Variable func : A → S → S.

(** What the closure returned by [debounce] holds: the arguments captured
    by the pending [later], if a timer is set. *)
Definition Pending : Type := option A.

Inductive DebounceEvent :=
| Invoke (args : A)     (* the returned function is called *)
| Elapse.               (* the pending timer, if any, runs out *)

(** A call clears the pending timer and sets a new one; a timer that runs
    out calls [func] with the arguments of the call that set it. *)
Definition debounceStep (st : Pending * S) (ev : DebounceEvent) : Pending * S :=
  match ev with
  | Invoke args => (Some args, st.2)
  | Elapse =>
      match st.1 with
      | Some args => (None, func args st.2)
      | None => (None, st.2)
      end
  end.

Definition debounceRun (evs : list DebounceEvent) (st : Pending * S)
    : Pending * S :=
  fold_left debounceStep evs st.

End Debounce.

(** ** The page around the component *)

(** An element the component styles as a control: a filter button, or any
    other element that carries [data-filter] or [data-value]; filter
    groups and legends are kept apart, in [Labelling].
    [closestGroup] is what [closest('.filter-group')] finds from it and
    [insideGroups] lists the filter groups it is a descendant of. *)
Record Control := mkControl {
  isFilterBtn : bool;
  dataFilter : option string;
  dataValue : option string;
  closestGroup : option nat;
  insideGroups : list nat;
  activeClass : bool;
  ariaPressed : option string;
  roleAttr : option string;
  tabindexAttr : option string;
  textContent : string
}.

(** The inline style and the hidden class of a course card. *)
Record CardStyle := mkCardStyle {
  display : string;
  opacity : string;
  transform : string;
  hiddenClass : bool
}.

(** The [.courses-empty-state] element. *)
Record EmptyState := mkEmptyState {
  emptyDisplay : string;
  emptyAriaHidden : option string
}.

(** A [.filter-group] element: its [role] and [aria-labelledby]
    attributes and, when it has a [.filter-legend] descendant, the position
    of the first one among the legends of the page. *)
Record FilterGroup := mkFilterGroup {
  groupRole : option string;
  groupLabelledBy : option string;
  groupLegend : option nat
}.

(** What the labelling of the groups reads and writes: the filter groups
    in document order, the [id] of every [.filter-legend] element, and the
    random source, [randomSuffix n] being the [n]-th value that
    [Math.random().toString(36).substr(2, 9)] yields and [randomDrawn] the
    number of values drawn so far. *)
Record Labelling := mkLabelling {
  groups : list FilterGroup;
  legendIds : list (option string);
  randomSuffix : nat → string;
  randomDrawn : nat
}.

(** The parts of the document the component writes.  Card [i] of
    [cardStyles] is the element held at position [i] of [courses];
    [liveRegion], [filterResultsCount] and [searchResultsCount] are the
    text of [#course-filter-announcements], [.filter-results-count] and
    [.search-results-count] when the element exists. *)
Record Page := mkPage {
  controls : list Control;
  labelling : Labelling;
  cardStyles : list CardStyle;
  liveRegion : option string;
  filterResultsCount : option string;
  searchResultsCount : option string;
  emptyState : option EmptyState
}.

(** The component together with the page and the timer of the debounced
    search listener. *)
Record Ui := mkUi {
  component : CourseFilter;
  document : Page;
  searchTimer : option unit
}.

Definition setActive (on : bool) (c : Control) : Control :=
  {| isFilterBtn := isFilterBtn c; dataFilter := dataFilter c;
     dataValue := dataValue c; closestGroup := closestGroup c;
     insideGroups := insideGroups c; activeClass := on;
     ariaPressed := ariaPressed c; roleAttr := roleAttr c;
     tabindexAttr := tabindexAttr c; textContent := textContent c |}.

Definition setPressed (v : string) (c : Control) : Control :=
  {| isFilterBtn := isFilterBtn c; dataFilter := dataFilter c;
     dataValue := dataValue c; closestGroup := closestGroup c;
     insideGroups := insideGroups c; activeClass := activeClass c;
     ariaPressed := Some v; roleAttr := roleAttr c;
     tabindexAttr := tabindexAttr c; textContent := textContent c |}.

(** [c] is among [filterGroup.querySelectorAll(filterSelector)] for the
    group [g]. *)
Definition groupButton (g : nat) (c : Control) : bool :=
  isFilterBtn c && bool_decide (g ∈ insideGroups c).

(** [updateActiveButtons(filterType, activeButton)], the active button
    being the control at position [i]. *)
Definition updateActiveButtons (i : nat) (cs : list Control) : list Control :=
  match cs !! i with
  | None => cs
  | Some b =>
      match closestGroup b with
      | None => cs
      | Some g =>
          let cs1 := map (λ c, if groupButton g c then setActive false c else c) cs in
          let cs2 := alter (setActive true) i cs1 in
          let cs3 := map (λ c, if groupButton g c then setPressed "false" c else c) cs2 in
          alter (setPressed "true") i cs3
      end
  end.

(** The button part of [clearAllFilters]: every filter button is reset,
    then every element with [data-value="all"] is activated. *)
Definition clearButtons (cs : list Control) : list Control :=
  let cs1 :=
    map (λ c, if isFilterBtn c then setPressed "false" (setActive false c) else c) cs in
  map (λ c, if bool_decide (dataValue c = Some "all")
            then setPressed "true" (setActive true c) else c) cs1.

(** The button part of [setupAccessibility]. *)
Definition setupButton (c : Control) : Control :=
  if isFilterBtn c then
    {| isFilterBtn := isFilterBtn c; dataFilter := dataFilter c;
       dataValue := dataValue c; closestGroup := closestGroup c;
       insideGroups := insideGroups c; activeClass := activeClass c;
       ariaPressed := Some (if activeClass c then "true" else "false");
       roleAttr := Some "button";
       tabindexAttr := match tabindexAttr c with
                       | Some t => Some t
                       | None => Some "0"
                       end;
       textContent := textContent c |}
  else c.

(** The first loop of [setupAccessibility], over the filter groups in
    document order: a group with a legend draws a random suffix, takes the
    role "group" and is labelled by the new id, which its legend receives;
    a group without a legend is passed over.  The legends and the number
    of suffixes drawn are threaded through. *)
Fixpoint labelGroups (suffix : nat → string) (gs : list FilterGroup)
    (legends : list (option string)) (drawn : nat)
    : list FilterGroup * list (option string) * nat :=
  match gs with
  | [] => ([], legends, drawn)
  | g :: rest =>
      match groupLegend g with
      | Some l =>
          let groupId := "filter-group-" ++ suffix drawn in
          let '(rest', legends', drawn') :=
            labelGroups suffix rest (<[l := Some groupId]> legends) (S drawn) in
          ({| groupRole := Some "group";
              groupLabelledBy := Some groupId;
              groupLegend := groupLegend g |} :: rest',
           legends', drawn')
      | None =>
          let '(rest', legends', drawn') :=
            labelGroups suffix rest legends drawn in
          (g :: rest', legends', drawn')
      end
  end.

Definition setupGroups (lb : Labelling) : Labelling :=
  let '(gs, legends, drawn) :=
    labelGroups (randomSuffix lb) (groups lb) (legendIds lb) (randomDrawn lb) in
  {| groups := gs;
     legendIds := legends;
     randomSuffix := randomSuffix lb;
     randomDrawn := drawn |}.

(** [setupAccessibility]: the groups are labelled, the buttons are set up
    and the live region is created when the page has none. *)
Definition setupAccessibility (pg : Page) : Page :=
  {| controls := map setupButton (controls pg);
     labelling := setupGroups (labelling pg);
     cardStyles := cardStyles pg;
     liveRegion := match liveRegion pg with
                   | Some text => Some text
                   | None => Some ""
                   end;
     filterResultsCount := filterResultsCount pg;
     searchResultsCount := searchResultsCount pg;
     emptyState := emptyState pg |}.

Definition showCourse (s : CardStyle) : CardStyle :=
  {| display := "block"; opacity := "1"; transform := "translateY(0)";
     hiddenClass := false |}.

(** [hideCourse] up to the call of [setTimeout]. *)
Definition hideCourse (s : CardStyle) : CardStyle :=
  {| display := display s; opacity := "0";
     transform := "translateY(-10px)"; hiddenClass := hiddenClass s |}.

(** The callback [hideCourse] hands to [setTimeout]. *)
Definition hideTimeout (s : CardStyle) : CardStyle :=
  if opacity s =? "0" then
    {| display := "none"; opacity := opacity s; transform := transform s;
       hiddenClass := true |}
  else s.

(** [`course${count !== 1 ? 's' : ''}`] *)
Definition plural (count : nat) : string :=
  if (count =? 1)%nat then "" else "s".

(** The body of the [forEach] in [renderCourses] for the card at position
    [i].  Membership in [filteredCourses] is by value here and by identity
    in the source; the two agree because the filter callbacks only look at
    the content of a card. *)
Definition renderCard (cf : CourseFilter) (i : nat) (s : CardStyle) : CardStyle :=
  match courses cf !! i with
  | Some c =>
      if bool_decide (c ∈ filteredCourses cf) then showCourse s else hideCourse s
  | None => s
  end.

(** [renderCourses] with [updateResultsCount] and [toggleEmptyState]; the
    custom event is not modelled. *)
Definition renderCourses (cf : CourseFilter) (pg : Page) : Page :=
  let count := length (filteredCourses cf) in
  let total := length (courses cf) in
  {| controls := controls pg;
     labelling := labelling pg;
     cardStyles := imap (renderCard cf) (cardStyles pg);
     liveRegion := liveRegion pg;
     filterResultsCount :=
       (λ _, "Showing " ++ pretty count ++ " of " ++ pretty total ++ " courses")
         <$> filterResultsCount pg;
     searchResultsCount := searchResultsCount pg;
     emptyState :=
       (λ _, if (count =? 0)%nat
             then {| emptyDisplay := "block"; emptyAriaHidden := Some "false" |}
             else {| emptyDisplay := "none"; emptyAriaHidden := Some "true" |})
         <$> emptyState pg |}.

Definition announceToScreenReader (message : string) (pg : Page) : Page :=
  {| controls := controls pg;
     labelling := labelling pg;
     cardStyles := cardStyles pg;
     liveRegion := (λ _, message) <$> liveRegion pg;
     filterResultsCount := filterResultsCount pg;
     searchResultsCount := searchResultsCount pg;
     emptyState := emptyState pg |}.

Definition withControls (cs : list Control) (pg : Page) : Page :=
  {| controls := cs;
     labelling := labelling pg;
     cardStyles := cardStyles pg;
     liveRegion := liveRegion pg;
     filterResultsCount := filterResultsCount pg;
     searchResultsCount := searchResultsCount pg;
     emptyState := emptyState pg |}.

(** The click listener of [bindEvents] with [handleFilterClick], for a
    click whose target is the control at position [i]. *)
Definition clickControl (i : nat) (ui : Ui) : Ui :=
  match controls (document ui) !! i with
  | Some button =>
      if isFilterBtn button
         && truthy (dataFilter button) && truthy (dataValue button)
      then
        let cf := handleFilterClick (dataFilter button) (dataValue button)
                    (component ui) in
        let coursesCount := length (filteredCourses cf) in
        {| component := cf;
           document :=
             announceToScreenReader
               ("Filter applied: " ++ textContent button ++ ". Showing "
                ++ pretty coursesCount ++ " course" ++ plural coursesCount ++ ".")
               (renderCourses cf
                  (withControls (updateActiveButtons i (controls (document ui)))
                     (document ui)));
           searchTimer := searchTimer ui |}
      else ui
  | None => ui
  end.

(** [clearAllFilters] with its effects on the page. *)
Definition clearAll (ui : Ui) : Ui :=
  let cf := clearAllFilters (component ui) in
  {| component := cf;
     document :=
       announceToScreenReader "All filters cleared. Showing all courses."
         (renderCourses cf
            (withControls (clearButtons (controls (document ui))) (document ui)));
     searchTimer := searchTimer ui |}.

(** [handleSearch] with its effects on the page. *)
Definition search (searchTerm : string) (ui : Ui) : Ui :=
  let cf := handleSearch searchTerm (component ui) in
  let pg := renderCourses cf (document ui) in
  let count := length (filteredCourses cf) in
  {| component := cf;
     document :=
       {| controls := controls pg;
          labelling := labelling pg;
          cardStyles := cardStyles pg;
          liveRegion := liveRegion pg;
          filterResultsCount := filterResultsCount pg;
          searchResultsCount :=
            (λ _, pretty count ++ " course" ++ plural count ++ " found")
              <$> searchResultsCount pg;
          emptyState := emptyState pg |};
     searchTimer := searchTimer ui |}.

(** The listener wrapped by [debounce] in [bindEvents]:
    [handleSearch(e.target.value)] reads the search box when it runs. *)
Definition searchListener (_ : unit) (ui : Ui) : Ui :=
  search (or_empty (searchInput (component ui))) ui.

(** An event of the debounced listener, the timer being kept in [ui]. *)
Definition debouncedSearch (ev : DebounceEvent) (ui : Ui) : Ui :=
  let st := debounceStep searchListener (searchTimer ui, ui) ev in
  {| component := component st.2;
     document := document st.2;
     searchTimer := st.1 |}.

(** The user edits the search box, if there is one: the box takes the new
    content and the debounced listener is called. *)
Definition typeInSearchBox (typed : string) (ui : Ui) : Ui :=
  match searchInput (component ui) with
  | Some _ =>
      debouncedSearch (Invoke tt)
        {| component :=
             {| filters := filters (component ui);
                courses := courses (component ui);
                filteredCourses := filteredCourses (component ui);
                searchInput := Some typed |};
           document := document ui;
           searchTimer := searchTimer ui |}
  | None => ui
  end.

(** The timer of the debounced listener runs out. *)
Definition searchTimerElapsed (ui : Ui) : Ui := debouncedSearch Elapse ui.

(** The timer set by [hideCourse] for the card at position [i] runs out. *)
Definition hideTimerElapsed (i : nat) (ui : Ui) : Ui :=
  {| component := component ui;
     document :=
       {| controls := controls (document ui);
          labelling := labelling (document ui);
          cardStyles := alter hideTimeout i (cardStyles (document ui));
          liveRegion := liveRegion (document ui);
          filterResultsCount := filterResultsCount (document ui);
          searchResultsCount := searchResultsCount (document ui);
          emptyState := emptyState (document ui) |};
     searchTimer := searchTimer ui |}.

(** [destroy] with the removal of the live region. *)
Definition destroyAll (ui : Ui) : Ui :=
  {| component := destroy (component ui);
     document :=
       {| controls := controls (document ui);
          labelling := labelling (document ui);
          cardStyles := cardStyles (document ui);
          liveRegion := None;
          filterResultsCount := filterResultsCount (document ui);
          searchResultsCount := searchResultsCount (document ui);
          emptyState := emptyState (document ui) |};
     searchTimer := searchTimer ui |}.

(** [new CourseFilter()] on the page [pg] whose cards have the content
    [cards]: [init] loads the cards, sets up accessibility, renders and
    announces. *)
Definition start (cards : list Course) (box : option string) (pg : Page) : Ui :=
  let cf := construct cards box in
  {| component := cf;
     document :=
       announceToScreenReader
         "Course filter initialized. Use filter buttons to refine results."
         (renderCourses cf (setupAccessibility pg));
     searchTimer := None |}.

(** What can happen to a running instance through the page. *)
Inductive UiEvent :=
| ClickOn (i : nat)
| TypeInBox (typed : string)
| SearchTimerElapsed
| ClickClearButton
| HideTimerElapsed (i : nat)
| DestroyInstance.

Definition uiStep (ui : Ui) (ev : UiEvent) : Ui :=
  match ev with
  | ClickOn i => clickControl i ui
  | TypeInBox typed => typeInSearchBox typed ui
  | SearchTimerElapsed => searchTimerElapsed ui
  | ClickClearButton => clearAll ui
  | HideTimerElapsed i => hideTimerElapsed i ui
  | DestroyInstance => destroyAll ui
  end.

Definition uiRun (evs : list UiEvent) (ui : Ui) : Ui :=
  fold_left uiStep evs ui.

(** The event that ends the life of the instance. *)
Definition destroys (ev : UiEvent) : bool :=
  match ev with
  | DestroyInstance => true
  | _ => false
  end.

(** ** Properties of the page *)

(** A filter button announces its state correctly: [aria-pressed] says
    whether it carries the active class, its role is "button" and it can
    take the focus. *)
Definition accessibleButton (c : Control) : Prop :=
  isFilterBtn c = true →
  ariaPressed c = Some (if activeClass c then "true" else "false") ∧
  roleAttr c = Some "button" ∧
  is_Some (tabindexAttr c).

(** The cards on screen follow the filtered list: a card of the list is
    fully shown, any other card of the component is faded out. *)
Definition viewAgrees (ui : Ui) : Prop :=
  ∀ i c s,
    courses (component ui) !! i = Some c →
    cardStyles (document ui) !! i = Some s →
    if bool_decide (c ∈ filteredCourses (component ui))
    then display s = "block" ∧ opacity s = "1" ∧ hiddenClass s = false
    else opacity s = "0".

(** ** A sample page with controls *)

Module SamplePage.

Definition button (filter value : string) (group : nat) (active : bool)
    : Control :=
  {| isFilterBtn := true; dataFilter := Some filter; dataValue := Some value;
     closestGroup := Some group; insideGroups := [group];
     activeClass := active; ariaPressed := None; roleAttr := None;
     tabindexAttr := None; textContent := value |}.

Definition buttons : list Control :=
  [button "level" "all" 0 true; button "level" "beginner" 0 false;
   button "level" "advanced" 0 false; button "price" "all" 1 true].

Definition plainStyle : CardStyle :=
  {| display := ""; opacity := ""; transform := ""; hiddenClass := false |}.

(** Two filter groups, each with a legend of its own that has no id yet;
    the random source counts up. *)
Definition legends : Labelling :=
  {| groups := [{| groupRole := None; groupLabelledBy := None;
                   groupLegend := Some 0 |};
                {| groupRole := None; groupLabelledBy := None;
                   groupLegend := Some 1 |}];
     legendIds := [None; None];
     randomSuffix := λ n, pretty n;
     randomDrawn := 0 |}.

Definition parts : Page :=
  {| controls := buttons;
     labelling := legends;
     cardStyles := [plainStyle; plainStyle; plainStyle];
     liveRegion := None;
     filterResultsCount := Some "";
     searchResultsCount := Some "";
     emptyState := Some {| emptyDisplay := "none"; emptyAriaHidden := None |} |}.

(** A running instance on the three sample cards. *)
Definition running : Ui := start Sample.page (Some "") parts.

End SamplePage.

(** ** Kinds of operations *)

(** The operations reached through the listeners of [bindEvents]: a click
    on a filter button, typing in the search box, the clear button. *)
Definition boundEvent (op : Op) : bool :=
  match op with
  | ClickFilter _ _ | TypeSearch _ | ClickClear => true
  | _ => false
  end.

(** [loadCourses] is the one operation that replaces the item list without
    looking at the filters. *)
Definition reloads (op : Op) : bool :=
  match op with
  | CallLoadCourses _ => true
  | _ => false
  end.

(** Every shown item passes the filter callback for the stored filters. *)
Definition shownMatch (cf : CourseFilter) : Prop :=
  ∀ c, In c (filteredCourses cf) → courseMatches (filters cf) c = true.

(** No stored filter value is the empty string. *)
Definition valuesNonEmpty (cf : CourseFilter) : Prop :=
  ∀ k v, filters cf !! k = Some v → v ≠ "".

(** ** Proof support *)

(** Evaluates the quantifier over the entries of a concrete filter object. *)
Ltac by_entries :=
  let k := fresh "k" in
  let v := fresh "v" in
  let Hkv := fresh "Hkv" in
  let Hin := fresh "Hin" in
  intros k v Hkv;
  match type of Hkv with
  | ?m !! _ = _ =>
      let l := eval vm_compute in (map_to_list m) in
      assert (In (k, v) l) as Hin
        by (apply list_elem_of_In;
            change l with (map_to_list m);
            by apply elem_of_map_to_list);
      clear Hkv; simpl in Hin;
      repeat (destruct Hin as [Hin|Hin];
              [injection Hin as <- <-|]);
      [..|destruct Hin]
  end.

(** ** Facts about the string primitives *)

Section StringFacts.

Lemma append_cons (a : ascii) (s t : string) :
  String a s ++ t = String a (s ++ t).
Proof. reflexivity. Qed.

Lemma prefix_append (t s : string) :
  String.prefix t s = true ↔ ∃ post, s = t ++ post.
Proof.
  revert s. induction t as [|a t IH]; intros s; simpl.
  - destruct s; simpl; split; eauto.
  - destruct s as [|b s]; simpl.
    + split; [discriminate | intros [post H]; discriminate].
    + destruct (ascii_dec a b) as [->|Hab].
      * rewrite IH. split; intros [post H]; exists post;
          rewrite append_cons in *; congruence.
      * split; [discriminate|].
        intros [post H]. rewrite append_cons in H. congruence.
Qed.

Lemma includes_nil (t : string) :
  includes "" t = String.prefix t "" || false.
Proof. reflexivity. Qed.

Lemma includes_cons (b : ascii) (r t : string) :
  includes (String b r) t = String.prefix t (String b r) || includes r t.
Proof. reflexivity. Qed.

Lemma includes_occursIn (s t : string) :
  includes s t = true ↔ occursIn t s.
Proof.
  induction s as [|b r IH];
    rewrite ?includes_nil, ?includes_cons, orb_true_iff, prefix_append.
  - split.
    + intros [[post H]|H]; [|discriminate]. by exists "", post.
    + intros ([|? ?] & post & H); [left; by exists post | discriminate].
  - rewrite IH. split.
    + intros [[post H]|(pre & post & H)].
      * by exists "", post.
      * exists (String b pre), post. by rewrite append_cons, H.
    + intros ([|a pre] & post & H).
      * left. by exists post.
      * right. exists pre, post. rewrite append_cons in H. congruence.
Qed.

Lemma includes_empty (s : string) : includes s "" = true.
Proof. apply includes_occursIn. by exists "", s. Qed.

Lemma lowerChar_idemp (a : ascii) : lowerChar (lowerChar a) = lowerChar a.
Proof. destruct a as [[] [] [] [] [] [] [] []]; reflexivity. Qed.

Lemma toLowerCase_idemp (s : string) :
  toLowerCase (toLowerCase s) = toLowerCase s.
Proof.
  induction s as [|a s IH]; simpl; [done|]. by rewrite lowerChar_idemp, IH.
Qed.

Lemma split_nonempty (sep : ascii) (s : string) : split sep s ≠ [].
Proof.
  destruct s as [|a s]; simpl; [done|].
  destruct (Ascii.eqb a sep); [done|]. by destruct (split sep s).
Qed.

Lemma join_split (sep : ascii) (s : string) : join sep (split sep s) = s.
Proof.
  induction s as [|a s IH]; simpl; [done|].
  destruct (Ascii.eqb_spec a sep) as [->|Hne].
  - pose proof (split_nonempty sep s) as Hs.
    destruct (split sep s) as [|p ps]; [done|]. simpl in *. by rewrite IH.
  - destruct (split sep s) as [|p [|q ps]]; simpl in *; by rewrite <- IH.
Qed.

Lemma split_pieces_free (sep : ascii) (s p : string) :
  In p (split sep s) → includes p (String sep "") = false.
Proof.
  revert p. induction s as [|a s IH]; intros p; simpl.
  - intros [<-|[]]. reflexivity.
  - destruct (Ascii.eqb_spec a sep) as [->|Hne].
    + intros [<-|Hp]; [reflexivity | by apply IH].
    + pose proof (split_nonempty sep s) as Hs.
      destruct (split sep s) as [|q qs]; [done|].
      intros [<-|Hp]; [|apply IH; by right].
      simpl. destruct (ascii_dec sep a) as [->|_]; [done|].
      simpl. apply IH. by left.
Qed.

Lemma trimStart_no_leading_space (s : string) :
  match trimStart s with
  | String a _ => isSpace a = false
  | EmptyString => True
  end.
Proof.
  induction s as [|a s IH]; simpl; [done|].
  destruct (isSpace a) eqn:Ha; [done | by simpl].
Qed.

Lemma trimEnd_keeps_head (a : ascii) (s : string) :
  isSpace a = false → ∃ r, trimEnd (String a s) = String a r.
Proof.
  intros Ha. simpl. destruct (trimEnd s); rewrite ?Ha; eauto.
Qed.

(** A trimmed string does not begin with white space. *)
Lemma trim_no_leading_space (s : string) :
  match trim s with
  | String a _ => isSpace a = false
  | EmptyString => True
  end.
Proof.
  unfold trim. pose proof (trimStart_no_leading_space s) as H.
  destruct (trimStart s) as [|a r]; [done|].
  destruct (trimEnd_keeps_head a r H) as [r' ->]. done.
Qed.

Lemma trimStart_decompose (s : string) :
  ∃ l, s = l ++ trimStart s ∧ allSpace l = true.
Proof.
  induction s as [|a s (l & Hl & Hsp)]; simpl.
  - by exists "".
  - destruct (isSpace a) eqn:Ha.
    + exists (String a l). rewrite append_cons, <- Hl. simpl.
      by rewrite Ha, Hsp.
    + by exists "".
Qed.

Lemma trimEnd_decompose (s : string) :
  ∃ r, s = trimEnd s ++ r ∧ allSpace r = true.
Proof.
  induction s as [|a s (r & Hr & Hsp)]; simpl.
  - by exists "".
  - destruct (trimEnd s) as [|b t] eqn:Ht.
    + destruct (isSpace a) eqn:Ha.
      * exists (String a s). split; [done|]. simpl.
        rewrite Ha. simpl. by rewrite Hr.
      * exists s. split; [done|]. by rewrite Hr.
    + exists r. split; [|done]. by rewrite append_cons, <- Hr.
Qed.

Lemma trimEnd_no_trailing_space (s : string) :
  endsWithSpace (trimEnd s) = false.
Proof.
  induction s as [|a s IH]; simpl; [done|].
  destruct (trimEnd s) as [|b t].
  - destruct (isSpace a) eqn:Ha; simpl; [done | exact Ha].
  - exact IH.
Qed.

(** What [trim] returns: the argument without a leading and a trailing run
    of white space, with no white space left at either end. *)
Lemma trim_decompose (s : string) :
  (∃ l r, s = l ++ trim s ++ r ∧ allSpace l = true ∧ allSpace r = true) ∧
  endsWithSpace (trim s) = false.
Proof.
  split; [|apply trimEnd_no_trailing_space].
  destruct (trimStart_decompose s) as (l & Hl & Hlsp).
  destruct (trimEnd_decompose (trimStart s)) as (r & Hr & Hrsp).
  exists l, r. unfold trim. by rewrite <- Hr.
Qed.

End StringFacts.

(** ** Facts about the filter predicate *)

Section FilterFacts.

Implicit Types (fs : gmap string string) (c : Course) (cf : CourseFilter).

Lemma courseMatches_lookup fs c :
  courseMatches fs c = true ↔
  ∀ k v, fs !! k = Some v → entryMatches c k v = true.
Proof.
  unfold courseMatches. rewrite forallb_forall. split.
  - intros H k v Hkv. apply (H (k, v)).
    apply list_elem_of_In. by apply elem_of_map_to_list.
  - intros H [k v] Hin.
    apply list_elem_of_In, elem_of_map_to_list in Hin. by apply H.
Qed.

Lemma courseMatches_insert fs k v c :
  courseMatches (<[k:=v]> fs) c =
  entryMatches c k v && courseMatches (delete k fs) c.
Proof.
  apply eq_true_iff_eq.
  rewrite andb_true_iff, !courseMatches_lookup. split.
  - intros H. split.
    + apply H, lookup_insert_eq.
    + intros k' v' Hk'. destruct (decide (k = k')) as [->|Hne].
      * by rewrite lookup_delete_eq in Hk'.
      * rewrite lookup_delete_ne in Hk' by done.
        apply H. by rewrite lookup_insert_ne.
  - intros [H1 H2] k' v' Hk'. destruct (decide (k = k')) as [->|Hne].
    + rewrite lookup_insert_eq in Hk'. by injection Hk' as <-.
    + rewrite lookup_insert_ne in Hk' by done.
      apply H2. by rewrite lookup_delete_ne.
Qed.

Lemma entryMatches_all c k : entryMatches c k "all" = true.
Proof. reflexivity. Qed.

Lemma arrayIncludes_In (arr : list string) (v : string) :
  arrayIncludes arr v = true ↔ In v arr.
Proof.
  unfold arrayIncludes. rewrite existsb_exists. split.
  - intros (x & Hx & Heq). apply String.eqb_eq in Heq. by subst.
  - intros H. exists v. split; [done | apply String.eqb_refl].
Qed.

(** What the [every] callback decides, case by case. *)
Lemma entryMatches_codeEntry c k v :
  entryMatches c k v = true ↔ codeEntry c k v.
Proof.
  unfold entryMatches, codeEntry.
  destruct (String.eqb_spec v "all") as [->|Hall]; [by split; auto|].
  destruct (courseValue c k) as [s|] eqn:Hcv.
  - destruct (includes s ",") eqn:Hcomma.
    + assert (truthy (Some s) = true) as ->
        by (destruct s; [discriminate Hcomma | reflexivity]).
      simpl. rewrite arrayIncludes_In. split.
      * intros Hin. right; left. by exists s.
      * intros [?|[(s' & [= <-] & _ & Hin)|[[= ->] Hno]]]; [done|done|congruence].
    + rewrite andb_false_r, String.eqb_eq. split.
      * intros ->. by right; right.
      * intros [?|[(s' & [= <-] & Hyes & _)|[[= ->] _]]]; [done|congruence|done].
  - split; [discriminate|].
    intros [?|[(s' & ? & _)|[? _]]]; [done|discriminate|discriminate].
Qed.

Lemma applyFilters_In cf c :
  In c (filteredCourses (applyFilters cf)) ↔
  In c (courses cf) ∧ courseMatches (filters cf) c = true.
Proof. simpl. apply filter_In. Qed.

Lemma filter_all_true {A} (f : A → bool) (l : list A) :
  (∀ x, In x l → f x = true) → List.filter f l = l.
Proof.
  induction l as [|x l IH]; intros H; simpl; [done|].
  rewrite (H x) by (by left). f_equal. apply IH. intros y Hy. apply H. by right.
Qed.

Lemma filter_sublist_of {A} (f : A → bool) (l : list A) :
  List.filter f l `sublist_of` l.
Proof.
  induction l as [|x l IH]; simpl; [constructor|].
  destruct (f x); by constructor.
Qed.

Lemma initialFilters_all k v : initialFilters !! k = Some v → v = "all".
Proof.
  unfold initialFilters. intros H.
  repeat (apply lookup_insert_Some in H as [[_ <-]|[_ H]]; [done|]).
  by rewrite lookup_empty in H.
Qed.

End FilterFacts.

(** ** Recomputation ([applyFilters]) *)

(** C3, as worded, fails: a card with [data-level="a,b"] satisfies the
    worded predicate for the selected value "a,b" (its attribute equals the
    value), yet recomputation drops it, because an attribute that contains
    a comma is only compared piece by piece. *)
Lemma comma_value_counterexample :
  let cf := updateFilter "level" "a,b" (construct [Sample.twoLevels] None) in
  In Sample.twoLevels (courses cf) ∧
  matchesFilterState (filters cf) Sample.twoLevels ∧
  ¬ In Sample.twoLevels (filteredCourses (applyFilters cf)).
Proof.
  split; [by left|]. split.
  - by_entries; try (by left). right; right. reflexivity.
  - vm_compute. tauto.
Qed.

(** C3 (amended): recomputation keeps an item iff for each dimension the
    selected value is "all", or the item's attribute contains a comma and
    the value is one of the trimmed pieces obtained by splitting on commas,
    or the attribute contains no comma and equals the value exactly. *)
Theorem recompute_keeps_iff (cf : CourseFilter) (c : Course) :
  In c (filteredCourses (applyFilters cf)) ↔
  In c (courses cf) ∧ ∀ k v, filters cf !! k = Some v → codeEntry c k v.
Proof.
  rewrite applyFilters_In, courseMatches_lookup.
  split; intros [Hc H]; (split; [done|]); intros k v Hkv;
    by apply entryMatches_codeEntry, H.
Qed.

Lemma recompute_keeps_iff_witness :
  let cf := updateFilter "level" "advanced"
              (construct [Sample.spanishTravel; Sample.mixedLevels] None) in
  In Sample.mixedLevels (filteredCourses (applyFilters cf)) ∧
  ¬ In Sample.spanishTravel (filteredCourses (applyFilters cf)).
Proof.
  intros cf. split.
  - apply (recompute_keeps_iff cf Sample.mixedLevels). split.
    + right. by left.
    + by_entries; try (by left). right; left.
      exists "beginner, advanced". split; [reflexivity|].
      split; [reflexivity|]. right. by left.
  - intros Hin.
    destruct (proj1 (recompute_keeps_iff cf Sample.spanishTravel) Hin)
      as [_ H].
    assert (filters cf !! "level" = Some "advanced") as Hlevel
      by (vm_compute; reflexivity).
    destruct (H "level" "advanced" Hlevel)
      as [H'|[(s & Hs & Hcomma & _)|[H' _]]].
    + discriminate H'.
    + vm_compute in Hs. injection Hs as <-. discriminate Hcomma.
    + vm_compute in H'. discriminate H'.
Defined.

(** C10, as worded, fails: a card whose level attribute is present but
    empty is kept when the level dimension is set to the empty string,
    a value other than "all". *)
Lemma empty_value_counterexample :
  let cf := updateFilter "level" "" (construct [Sample.emptyLevel] None) in
  noValue Sample.emptyLevel "level" ∧
  filters cf !! "level" = Some "" ∧ "" ≠ "all" ∧
  In Sample.emptyLevel (filteredCourses (applyFilters cf)).
Proof.
  split; [by right|]. split; [by vm_compute|]. split; [done|].
  vm_compute. by left.
Qed.

(** C10 (amended): an item whose attribute for a dimension is missing is
    dropped for every selected value other than "all"; an item whose
    attribute is present but empty is dropped for every selected value
    other than "all" and the empty string. *)
Theorem no_value_excluded (cf : CourseFilter) (c : Course) (k v : string) :
  filters cf !! k = Some v →
  v ≠ "all" →
  courseValue c k = None ∨ (courseValue c k = Some "" ∧ v ≠ "") →
  ¬ In c (filteredCourses (applyFilters cf)).
Proof.
  intros Hkv Hall Hno Hin.
  destruct (proj1 (applyFilters_In cf c) Hin) as [_ Hm].
  pose proof (proj1 (courseMatches_lookup _ _) Hm k v Hkv) as He.
  apply entryMatches_codeEntry in He.
  destruct He as [?|[(s & Hs & Hcomma & _)|[Hs _]]]; [done| |].
  - destruct Hno as [Hno|[Hno _]]; rewrite Hno in Hs; [done|].
    injection Hs as <-. discriminate Hcomma.
  - destruct Hno as [Hno|[Hno Hv]]; rewrite Hno in Hs; [done|].
    by injection Hs as <-.
Qed.

Lemma no_value_excluded_witness :
  let cf := updateFilter "level" "beginner"
              (construct [Sample.tagged; Sample.spanishTravel] None) in
  filters cf !! "level" = Some "beginner" ∧
  courseValue Sample.tagged "level" = None ∧
  ¬ In Sample.tagged (filteredCourses (applyFilters cf)).
Proof.
  split; [by vm_compute|]. split; [reflexivity|].
  apply (no_value_excluded _ Sample.tagged "level" "beginner").
  - by vm_compute.
  - discriminate.
  - left. reflexivity.
Defined.

(** C6: when every dimension is "all", recomputation returns the full item
    list unchanged, and so does a search for the empty term. *)
Theorem all_dimensions_all_is_identity (cf : CourseFilter) :
  (∀ k v, filters cf !! k = Some v → v = "all") →
  filteredCourses (applyFilters cf) = courses cf ∧
  filteredCourses (handleSearch "" cf) = courses cf.
Proof.
  intros Hall.
  assert (filteredCourses (applyFilters cf) = courses cf) as H.
  { simpl. apply filter_all_true. intros c _.
    apply courseMatches_lookup. intros k v Hkv.
    rewrite (Hall k v Hkv). apply entryMatches_all. }
  split; [exact H|]. exact H.
Qed.

Lemma all_dimensions_all_is_identity_witness :
  filteredCourses (applyFilters (construct Sample.page None)) = Sample.page ∧
  filteredCourses (handleSearch "" (construct Sample.page None)) = Sample.page.
Proof.
  apply (all_dimensions_all_is_identity (construct Sample.page None)).
  simpl. exact initialFilters_all.
Defined.

(** C7: the empty search term imposes no constraint: the result is the
    full item list filtered by the current filter state alone, and nothing
    else in the state changes. *)
Theorem empty_search_is_no_constraint (cf : CourseFilter) :
  filteredCourses (handleSearch "" cf) =
    List.filter (courseMatches (filters cf)) (courses cf) ∧
  handleSearch "" cf = applyFilters cf.
Proof. split; reflexivity. Qed.

(** C8: with three items whose levels are beginner, beginner and advanced,
    selecting level "beginner" leaves exactly the first two, in order. *)
Theorem beginner_scenario (a b c : Course) (box : option string) :
  courseValue a "level" = Some "beginner" →
  courseValue b "level" = Some "beginner" →
  courseValue c "level" = Some "advanced" →
  filteredCourses (updateFilter "level" "beginner" (construct [a; b; c] box))
  = [a; b].
Proof.
  intros Ha Hb Hc.
  assert (∀ x, courseMatches (<["level" := "beginner"]> initialFilters) x
               = entryMatches x "level" "beginner") as Hm.
  { intros x. rewrite courseMatches_insert.
    replace (courseMatches (delete "level" initialFilters) x) with true;
      [apply andb_true_r|].
    symmetry. apply courseMatches_lookup. intros k v Hkv.
    apply lookup_delete_Some in Hkv as [_ Hkv].
    rewrite (initialFilters_all k v Hkv). apply entryMatches_all. }
  unfold updateFilter, assignProperty, construct, loadCourses, applyFilters;
    simpl.
  rewrite !Hm. unfold entryMatches. rewrite Ha, Hb, Hc. reflexivity.
Qed.

Lemma beginner_scenario_witness :
  filteredCourses
    (updateFilter "level" "beginner" (construct Sample.page None))
  = [Sample.businessEnglish; Sample.spanishTravel].
Proof.
  apply (beginner_scenario Sample.businessEnglish Sample.spanishTravel
           Sample.germanExam None); reflexivity.
Defined.

(** ** Search ([handleSearch]) *)

Section SearchFacts.

Lemma searchMatches_occursIn (term : string) (c : Course) :
  searchMatches term c = true ↔
  occursIn term (or_empty (toLowerCase <$> title c)) ∨
  occursIn term (or_empty (toLowerCase <$> description c)) ∨
  occursIn term (or_empty (toLowerCase <$> dataset c !! "tags")).
Proof.
  unfold searchMatches.
  rewrite !orb_true_iff, !includes_occursIn. tauto.
Qed.

Lemma handleSearch_nonempty (searchTerm : string) (cf : CourseFilter) :
  trim (toLowerCase searchTerm) ≠ "" →
  filteredCourses (handleSearch searchTerm cf) =
  List.filter (searchMatches (trim (toLowerCase searchTerm)))
              (filteredCourses cf).
Proof.
  intros Hne. unfold handleSearch.
  destruct (String.eqb_spec (trim (toLowerCase searchTerm)) ""); done.
Qed.

Lemma handleSearch_blank (searchTerm : string) (cf : CourseFilter) :
  trim (toLowerCase searchTerm) = "" →
  handleSearch searchTerm cf = applyFilters cf.
Proof. intros H. unfold handleSearch. by rewrite H. Qed.

End SearchFacts.

(** C4: [handleSearch] lower-cases and trims the term; an item of the
    current list is kept iff the normalised term occurs in its lower-cased
    title, description or tags; terms that differ only in case give the
    same result; a card tagged "english,business" is matched by "bus" and,
    unless its title or description says otherwise, not by "span". *)
Theorem search_is_case_insensitive_substring
    (searchTerm : string) (cf : CourseFilter) :
  let term := trim (toLowerCase searchTerm) in
  (∀ c, searchMatches term c = true ↔
        occursIn term (or_empty (toLowerCase <$> title c)) ∨
        occursIn term (or_empty (toLowerCase <$> description c)) ∨
        occursIn term (or_empty (toLowerCase <$> dataset c !! "tags"))) ∧
  (term ≠ "" →
   ∀ c, In c (filteredCourses (handleSearch searchTerm cf)) ↔
        In c (filteredCourses cf) ∧ searchMatches term c = true) ∧
  (term = "" → handleSearch searchTerm cf = applyFilters cf) ∧
  (∀ other, toLowerCase other = toLowerCase searchTerm →
            handleSearch other cf = handleSearch searchTerm cf) ∧
  (∀ c, dataset c !! "tags" = Some "english,business" →
        searchMatches (trim (toLowerCase "bus")) c = true ∧
        (title c = None → description c = None →
         searchMatches (trim (toLowerCase "span")) c = false)).
Proof.
  intros term. split; [|split; [|split; [|split]]].
  - intros c. apply searchMatches_occursIn.
  - intros Hne c. unfold term in *.
    rewrite handleSearch_nonempty by done. apply filter_In.
  - apply handleSearch_blank.
  - intros other Heq. unfold handleSearch. by rewrite Heq.
  - intros c Htags. unfold searchMatches. rewrite Htags. split.
    + vm_compute (includes _ (trim (toLowerCase "bus"))) at 3.
      apply orb_true_r.
    + intros -> ->. reflexivity.
Qed.

Lemma search_is_case_insensitive_substring_witness :
  let cf := construct Sample.page (Some "") in
  trim (toLowerCase " BuS ") = "bus" ∧
  In Sample.businessEnglish (filteredCourses (handleSearch " BuS " cf)) ∧
  ¬ In Sample.spanishTravel (filteredCourses (handleSearch " BuS " cf)) ∧
  searchMatches "bus" Sample.tagged = true ∧
  searchMatches "span" Sample.tagged = false.
Proof.
  intros cf.
  destruct (search_is_case_insensitive_substring " BuS " cf)
    as (_ & Hkeep & _ & _ & Htag).
  assert (trim (toLowerCase " BuS ") ≠ "") as Hne by discriminate.
  destruct (Htag Sample.tagged eq_refl) as [Hbus Hspan].
  split; [reflexivity|]. split; [|split; [|split]].
  - apply (Hkeep Hne). split; [by left | reflexivity].
  - intros Hin. apply (Hkeep Hne) in Hin as [_ Hin]. discriminate Hin.
  - exact Hbus.
  - exact (Hspan eq_refl eq_refl).
Defined.

(** ** Clearing ([clearAllFilters]) *)

(** C5: clearing twice is the same as clearing once, and after clearing
    every dimension is "all", the search term is empty and the filtered
    list is the full item list; when the filter state holds the five
    initial dimensions, the cleared state is that of a fresh instance on
    the same items with an empty search box. *)
Theorem clear_idempotent_and_initial (cf : CourseFilter) :
  clearAllFilters (clearAllFilters cf) = clearAllFilters cf ∧
  (∀ k v, filters (clearAllFilters cf) !! k = Some v → v = "all") ∧
  currentTerm (clearAllFilters cf) = "" ∧
  filteredCourses (clearAllFilters cf) = courses (clearAllFilters cf) ∧
  courses (clearAllFilters cf) = courses cf ∧
  filteredCourses (clearAllFilters cf)
    = filteredCourses (applyFilters (clearAllFilters cf)) ∧
  (dom (filters cf) = dom initialFilters →
   filters (clearAllFilters cf) = initialFilters ∧
   clearAllFilters cf
   = construct (courses cf) ((λ _, "") <$> searchInput cf)).
Proof.
  assert (∀ k v, filters (clearAllFilters cf) !! k = Some v → v = "all")
    as Hall.
  { intros k v. simpl. rewrite lookup_fmap.
    destruct (filters cf !! k); simpl; congruence. }
  refine (conj _ (conj Hall (conj _ (conj eq_refl (conj eq_refl (conj _ _)))))).
  - unfold clearAllFilters; simpl. f_equal.
    + rewrite <- map_fmap_compose. reflexivity.
    + by destruct (searchInput cf).
  - unfold currentTerm; simpl. by destruct (searchInput cf).
  - symmetry. change (courses cf) with (courses (clearAllFilters cf)).
    apply filter_all_true. intros c _. apply courseMatches_lookup.
    intros k v Hkv. rewrite (Hall k v Hkv). apply entryMatches_all.
  - intros Hdom.
    assert (filters (clearAllFilters cf) = initialFilters) as Hfs.
    { apply map_eq. intros k. simpl. rewrite lookup_fmap.
      destruct (initialFilters !! k) as [v|] eqn:Hk.
      + rewrite (initialFilters_all k v Hk).
        assert (is_Some (filters cf !! k)) as [w ->]; [|done].
        apply elem_of_dom. rewrite Hdom. apply elem_of_dom. eauto.
      + assert (filters cf !! k = None) as ->; [|done].
        apply not_elem_of_dom. rewrite Hdom. by apply not_elem_of_dom. }
    split; [exact Hfs|].
    unfold construct, loadCourses; simpl. rewrite <- Hfs. reflexivity.
Qed.

Lemma clear_idempotent_and_initial_witness :
  let cf := updateFilter "level" "beginner"
              (searchInputEvent "bus" (construct Sample.page (Some ""))) in
  dom (filters cf) = dom initialFilters ∧
  filters cf ≠ initialFilters ∧
  clearAllFilters cf = construct Sample.page (Some "").
Proof.
  intros cf.
  assert (dom (filters cf) = dom initialFilters) as Hdom.
  { unfold cf, updateFilter, assignProperty, searchInputEvent, handleSearch;
      simpl.
    rewrite dom_insert_L. unfold initialFilters.
    rewrite !dom_insert_L. set_solver. }
  split; [exact Hdom|]. split.
  - intros H. apply (f_equal (lookup "level")) in H.
    vm_compute in H. discriminate H.
  - destruct (clear_idempotent_and_initial cf) as (_ & _ & _ & _ & _ & _ & H).
    exact (proj2 (H Hdom)).
Defined.

(** ** The filtered list as a subsequence of the item list *)

Section Subsequence.

Lemma applyFilters_inv (cf : CourseFilter) : subsequenceInv (applyFilters cf).
Proof. apply filter_sublist_of. Qed.

Lemma handleSearch_inv (searchTerm : string) (cf : CourseFilter) :
  subsequenceInv cf → subsequenceInv (handleSearch searchTerm cf).
Proof.
  intros Hinv. unfold handleSearch.
  destruct (trim (toLowerCase searchTerm) =? ""); [apply applyFilters_inv|].
  unfold subsequenceInv; simpl.
  etrans; [apply filter_sublist_of | exact Hinv].
Qed.

Lemma step_inv (cf : CourseFilter) (op : Op) :
  subsequenceInv cf → subsequenceInv (step cf op).
Proof.
  intros Hinv. destruct op as [page|t v|nf|ft fv|typed|term| |]; simpl.
  - unfold subsequenceInv; simpl. reflexivity.
  - apply applyFilters_inv.
  - apply applyFilters_inv.
  - unfold handleFilterClick. destruct ft, fv; try done.
    destruct (_ && _); [apply applyFilters_inv | done].
  - unfold searchInputEvent. destruct (searchInput cf); [|done].
    by apply handleSearch_inv.
  - by apply handleSearch_inv.
  - unfold subsequenceInv; simpl. reflexivity.
  - unfold subsequenceInv; simpl. reflexivity.
Qed.

Lemma run_inv (ops : list Op) (cf : CourseFilter) :
  subsequenceInv cf → subsequenceInv (run ops cf).
Proof.
  revert cf. induction ops as [|op ops IH]; intros cf Hinv; simpl; [done|].
  apply IH. by apply step_inv.
Qed.

Lemma sublist_count_occ (l1 l2 : list Course) (c : Course) :
  l1 `sublist_of` l2 →
  (count_occ Course_eq_dec l1 c ≤ count_occ Course_eq_dec l2 c)%nat.
Proof.
  induction 1 as [|x l1 l2 _ IH|x l1 l2 _ IH]; simpl; [done| |];
    destruct (Course_eq_dec x c); lia.
Qed.

End Subsequence.

(** C9: after every run of operations on a fresh instance the filtered
    list is an order-preserving subsequence of the item list: each of its
    elements occurs in the item list, none occurs more often than there,
    and the relative order is that of the item list. *)
Theorem filtered_is_subsequence
    (page : list Course) (box : option string) (ops : list Op) :
  let cf := run ops (construct page box) in
  filteredCourses cf `sublist_of` courses cf ∧
  filteredCourses cf ⊆ courses cf ∧
  ∀ c, (count_occ Course_eq_dec (filteredCourses cf) c
        ≤ count_occ Course_eq_dec (courses cf) c)%nat.
Proof.
  intros cf.
  assert (subsequenceInv cf) as Hinv.
  { apply run_inv. unfold subsequenceInv; simpl. reflexivity. }
  split; [exact Hinv|]. split.
  - by apply sublist_subseteq.
  - intros c. by apply sublist_count_occ.
Qed.

(** ** Dimension names outside the five documented ones *)

Section Dimensions.

Lemma assignProperty_proto (value : string) (obj : gmap string string) :
  assignProperty "__proto__" value obj = obj.
Proof. reflexivity. Qed.

Lemma assignProperty_other (key value : string) (obj : gmap string string) :
  key ≠ "__proto__" → assignProperty key value obj = <[key := value]> obj.
Proof.
  intros Hne. unfold assignProperty.
  by destruct (String.eqb_spec key "__proto__").
Qed.

Lemma assignProperty_union (key value : string) (m obj : gmap string string) :
  assignProperty key value (delete "__proto__" m ∪ obj)
  = delete "__proto__" (<[key := value]> m) ∪ obj.
Proof.
  unfold assignProperty. destruct (String.eqb_spec key "__proto__") as [->|Hne].
  - by rewrite delete_insert_eq.
  - by rewrite delete_insert_ne, insert_union_l by done.
Qed.

Lemma setFilters_singleton (type value : string) (cf : CourseFilter) :
  setFilters {[type := value]} cf = updateFilter type value cf.
Proof.
  unfold setFilters, updateFilter.
  rewrite <- insert_empty, <- assignProperty_union.
  by rewrite delete_empty, (left_id_L ∅ (∪)).
Qed.

Lemma updateFilter_filtered (type value : string) (cf : CourseFilter) :
  type ≠ "__proto__" →
  filteredCourses (updateFilter type value cf) =
  List.filter (λ c, entryMatches c type value)
    (List.filter (courseMatches (delete type (filters cf))) (courses cf)).
Proof.
  intros Hne. simpl. rewrite assignProperty_other by done.
  induction (courses cf) as [|c l IH]; simpl; [done|].
  rewrite courseMatches_insert.
  destruct (courseMatches (delete type (filters cf)) c); simpl;
    destruct (entryMatches c type value); simpl; by rewrite ?IH.
Qed.

End Dimensions.

(** C2, as worded, fails: setting the unrecognized dimension "teacher"
    changes the filter state and empties the recomputed list. *)
Lemma unrecognized_dimension_counterexample :
  let cf := construct Sample.page None in
  recognized "teacher" = false ∧
  filters (updateFilter "teacher" "anna" cf) ≠ filters cf ∧
  filteredCourses (applyFilters cf) = Sample.page ∧
  filteredCourses (updateFilter "teacher" "anna" cf) = [].
Proof.
  split; [reflexivity|]. split; [|split].
  - intros H. apply (f_equal (lookup "teacher")) in H.
    vm_compute in H. discriminate H.
  - by vm_compute.
  - by vm_compute.
Qed.

(** C2 (amended): among the names that are not one of the five recognized
    dimensions, only [__proto__] is ignored: the assignment stores nothing
    and the list is the one a recomputation alone gives.  For every other
    unrecognized name that is not inherited from [Object.prototype], the
    value is stored under that name, by [updateFilter] and by [setFilters]
    alike, the other entries stay as they were, and the recomputed list is
    the list for the other dimensions narrowed to the items whose attribute
    of that name matches the value; with the value "all" on a name not
    stored before, it is the list a recomputation alone would give.  No
    unrecognized name is among the entries the constructor creates. *)
Theorem unrecognized_dimension_is_applied
    (type value : string) (cf : CourseFilter) :
  recognized type = false →
  initialFilters !! type = None ∧
  setFilters {[type := value]} cf = updateFilter type value cf ∧
  (type = "__proto__" →
   filters (updateFilter type value cf) = filters cf ∧
   updateFilter type value cf = applyFilters cf) ∧
  (inheritedName type = false →
   filters (updateFilter type value cf) = <[type := value]> (filters cf) ∧
   filters (updateFilter type value cf) !! type = Some value ∧
   (∀ k, k ≠ type →
         filters (updateFilter type value cf) !! k = filters cf !! k) ∧
   filteredCourses (updateFilter type value cf) =
     List.filter (λ c, entryMatches c type value)
       (List.filter (courseMatches (delete type (filters cf))) (courses cf)) ∧
   (value = "all" → filters cf !! type = None →
    filteredCourses (updateFilter type value cf)
    = filteredCourses (applyFilters cf))).
Proof.
  intros Hun. split.
  { apply bool_decide_eq_false in Hun.
    rewrite !not_elem_of_cons in Hun.
    destruct Hun as (? & ? & ? & ? & ? & _).
    unfold initialFilters. rewrite !lookup_insert_ne by done.
    apply lookup_empty. }
  split; [apply setFilters_singleton|]. split.
  { intros ->. split; reflexivity. }
  intros Hinh.
  assert (type ≠ "__proto__") as Hne.
  { apply bool_decide_eq_false in Hinh.
    rewrite not_elem_of_cons in Hinh. by destruct Hinh as [? _]. }
  assert (filters (updateFilter type value cf) = <[type := value]> (filters cf))
    as Hfs by (simpl; by apply assignProperty_other).
  split; [exact Hfs|]. rewrite Hfs.
  split; [apply lookup_insert_eq|].
  split; [intros k Hk; by rewrite lookup_insert_ne|].
  split; [by apply updateFilter_filtered|].
  intros -> Hnone. rewrite updateFilter_filtered, delete_id by done.
  simpl. by apply filter_all_true.
Qed.

Lemma unrecognized_dimension_is_applied_witness :
  let cf := construct Sample.page None in
  recognized "teacher" = false ∧ inheritedName "teacher" = false ∧
  filters (updateFilter "teacher" "anna" cf) !! "teacher" = Some "anna" ∧
  setFilters {["teacher" := "anna"]} cf = updateFilter "teacher" "anna" cf ∧
  recognized "__proto__" = false ∧
  updateFilter "__proto__" "anna" cf = applyFilters cf.
Proof.
  intros cf.
  assert (recognized "teacher" = false) as Hun by reflexivity.
  assert (inheritedName "teacher" = false) as Hinh by reflexivity.
  assert (recognized "__proto__" = false) as Hproto by reflexivity.
  destruct (unrecognized_dimension_is_applied "teacher" "anna" cf Hun)
    as (_ & Hset & _ & Hother).
  destruct (Hother Hinh) as (_ & Hstored & _).
  destruct (unrecognized_dimension_is_applied "__proto__" "anna" cf Hproto)
    as (_ & _ & Hnoop & _).
  split; [exact Hun|]. split; [exact Hinh|]. split; [exact Hstored|].
  split; [exact Hset|]. split; [exact Hproto|].
  exact (proj2 (Hnoop eq_refl)).
Defined.

(** ** The search term across operations *)

(** C1 does not hold of the code.  The component keeps no search term;
    [handleSearch] narrows whatever list is current and [applyFilters]
    recomputes from the filters alone.  First run: with "bus" in the
    search box, choosing level "beginner" brings back a card that does not
    contain "bus".  Second run: after searching "bus", searching "span"
    yields nothing although a card matches every dimension and contains
    "span". *)
Theorem search_term_not_maintained :
  let start := construct Sample.page (Some "") in
  let cf1 := run [TypeSearch "bus"; CallUpdateFilter "level" "beginner"] start in
  let cf2 := run [TypeSearch "bus"; TypeSearch "span"] start in
  (currentTerm cf1 = "bus" ∧
   In Sample.spanishTravel (filteredCourses cf1) ∧
   ¬ matchesSearchTerm (currentTerm cf1) Sample.spanishTravel) ∧
  (currentTerm cf2 = "span" ∧
   In Sample.spanishTravel (courses cf2) ∧
   matchesFilterState (filters cf2) Sample.spanishTravel ∧
   matchesSearchTerm (currentTerm cf2) Sample.spanishTravel ∧
   ¬ In Sample.spanishTravel (filteredCourses cf2)).
Proof.
  split.
  - split; [reflexivity|]. split; [vm_compute; tauto|].
    change (currentTerm _) with "bus".
    intros [H|H]; [discriminate H|].
    rewrite <- !includes_occursIn in H.
    destruct H as [H|[H|H]]; discriminate H.
  - split; [reflexivity|]. split; [vm_compute; tauto|]. split; [|split].
    + by_entries; by left.
    + right; left. apply includes_occursIn. reflexivity.
    + vm_compute. tauto.
Qed.

(** * Further properties of the component *)

(** ** How filter updates compose *)

Section Composition.

Lemma append_assoc (a b c : string) : (a ++ b) ++ c = a ++ b ++ c.
Proof.
  induction a as [|x a IH]; [done|]. by rewrite !append_cons, IH.
Qed.

Lemma occursIn_trans (t1 t2 s : string) :
  occursIn t1 t2 → occursIn t2 s → occursIn t1 s.
Proof.
  intros (p1 & q1 & ->) (p2 & q2 & ->).
  exists (p2 ++ p1), (q1 ++ q2). by rewrite !append_assoc.
Qed.

Lemma filter_filter_and {A} (f g : A → bool) (l : list A) :
  List.filter f (List.filter g l) = List.filter (λ x, g x && f x) l.
Proof.
  induction l as [|x l IH]; simpl; [done|].
  destruct (g x); simpl; [destruct (f x)|]; by rewrite IH.
Qed.

Lemma filter_weaken_sublist {A} (f g : A → bool) (l : list A) :
  (∀ x, f x = true → g x = true) →
  List.filter f l `sublist_of` List.filter g l.
Proof.
  intros Hfg. induction l as [|x l IH]; simpl; [constructor|].
  destruct (f x) eqn:Hf.
  - rewrite (Hfg x Hf). by constructor.
  - destruct (g x); [by constructor | done].
Qed.

Lemma applyFilters_idemp (cf : CourseFilter) :
  applyFilters (applyFilters cf) = applyFilters cf.
Proof. reflexivity. Qed.

Lemma updateFilter_fold_entries (l : list (string * string)) (cf : CourseFilter) :
  foldr (λ kv s, updateFilter kv.1 kv.2 s) (applyFilters cf) l
  = setFilters (list_to_map l) cf.
Proof.
  induction l as [|[k v] l IH]; simpl.
  - unfold setFilters. by rewrite delete_empty, (left_id_L ∅ (∪)).
  - rewrite IH. unfold updateFilter, setFilters; simpl.
    by rewrite assignProperty_union.
Qed.

End Composition.

(** X1: on one dimension the last update wins; updates of different
    dimensions can be made in either order. *)
Theorem updateFilter_overwrites_and_commutes
    (t1 t2 v1 v2 : string) (cf : CourseFilter) :
  updateFilter t1 v2 (updateFilter t1 v1 cf) = updateFilter t1 v2 cf ∧
  (t1 ≠ t2 →
   updateFilter t2 v2 (updateFilter t1 v1 cf)
   = updateFilter t1 v1 (updateFilter t2 v2 cf)).
Proof.
  split.
  - unfold updateFilter, assignProperty; simpl.
    destruct (t1 =? "__proto__"); [done|]. by rewrite insert_insert_eq.
  - intros Hne. unfold updateFilter, assignProperty; simpl.
    destruct (t1 =? "__proto__"), (t2 =? "__proto__"); try done.
    by rewrite (insert_insert_ne _ t2 t1) by done.
Qed.

Lemma updateFilter_overwrites_and_commutes_witness :
  let cf := construct Sample.page None in
  "level" ≠ "price" ∧
  updateFilter "price" "free" (updateFilter "level" "beginner" cf)
  = updateFilter "level" "beginner" (updateFilter "price" "free" cf).
Proof.
  intros cf. split; [discriminate|].
  apply (updateFilter_overwrites_and_commutes "level" "price" "beginner" "free" cf).
  discriminate.
Defined.

(** X2: [setFilters] does what one [updateFilter] per entry does, an empty
    object only recomputes, and two calls in a row amount to one call with
    the merged object, later entries winning. *)
Theorem setFilters_as_updates
    (l : list (string * string)) (m1 m2 : gmap string string)
    (cf : CourseFilter) :
  foldr (λ kv s, updateFilter kv.1 kv.2 s) (applyFilters cf) l
  = setFilters (list_to_map l) cf ∧
  setFilters ∅ cf = applyFilters cf ∧
  setFilters m2 (setFilters m1 cf) = setFilters (m2 ∪ m1) cf.
Proof.
  split; [apply updateFilter_fold_entries|]. split.
  - unfold setFilters. by rewrite delete_empty, (left_id_L ∅ (∪)).
  - unfold setFilters; simpl. by rewrite delete_union, (assoc_L (∪)).
Qed.

(** X3: choosing a value for a dimension never shows an item that the
    value "all" for that dimension would hide: the list for the value is a
    subsequence of the list for "all". *)
Theorem specific_value_narrows (type value : string) (cf : CourseFilter) :
  filteredCourses (updateFilter type value cf)
  `sublist_of` filteredCourses (updateFilter type "all" cf).
Proof.
  simpl. unfold assignProperty.
  destruct (type =? "__proto__"); [reflexivity|].
  apply filter_weaken_sublist. intros c.
  rewrite !courseMatches_insert, !andb_true_iff. intros [_ H].
  split; [apply entryMatches_all | exact H].
Qed.

(** ** How searches compose *)

Section SearchComposition.

Lemma filter_idemp {A} (f : A → bool) (l : list A) :
  List.filter f (List.filter f l) = List.filter f l.
Proof.
  rewrite filter_filter_and. apply filter_ext. intros x. by destruct (f x).
Qed.

Lemma searchMatches_longer (t1 t2 : string) (c : Course) :
  occursIn t1 t2 → searchMatches t2 c = true → searchMatches t1 c = true.
Proof.
  intros Hsub. rewrite !searchMatches_occursIn.
  intros [H|[H|H]]; [left|right; left|right; right];
    by apply (occursIn_trans t1 t2).
Qed.

End SearchComposition.

(** X4: searching the same term again changes nothing; two searches with
    non-blank terms narrow the list to the items matching both, whatever
    the order; and when the first term occurs in the second, as when the
    user goes on typing, the result is that of the second term alone. *)
Theorem searches_compose (s1 s2 : string) (cf : CourseFilter) :
  let t1 := trim (toLowerCase s1) in
  let t2 := trim (toLowerCase s2) in
  handleSearch s1 (handleSearch s1 cf) = handleSearch s1 cf ∧
  (t1 ≠ "" → t2 ≠ "" →
   filteredCourses (handleSearch s2 (handleSearch s1 cf))
   = List.filter (λ c, searchMatches t1 c && searchMatches t2 c)
       (filteredCourses cf) ∧
   handleSearch s2 (handleSearch s1 cf) = handleSearch s1 (handleSearch s2 cf) ∧
   (occursIn t1 t2 →
    handleSearch s2 (handleSearch s1 cf) = handleSearch s2 cf)).
Proof.
  intros t1 t2. split.
  - unfold handleSearch. fold t1.
    destruct (String.eqb_spec t1 ""); simpl; [done|].
    by rewrite filter_idemp.
  - intros H1 H2. unfold handleSearch. fold t1 t2.
    destruct (String.eqb_spec t1 ""); [done|].
    destruct (String.eqb_spec t2 ""); [done|]. simpl.
    split; [apply filter_filter_and|]. split.
    + f_equal. rewrite !filter_filter_and. apply filter_ext.
      intros c. apply andb_comm.
    + intros Hsub. f_equal. rewrite filter_filter_and. apply filter_ext.
      intros c. destruct (searchMatches t2 c) eqn:Hc.
      * by rewrite (searchMatches_longer t1 t2 c Hsub Hc).
      * apply andb_false_r.
Qed.

Lemma searches_compose_witness :
  let cf := construct Sample.page (Some "") in
  trim (toLowerCase "Bus") ≠ "" ∧ trim (toLowerCase "business ") ≠ "" ∧
  occursIn (trim (toLowerCase "Bus")) (trim (toLowerCase "business ")) ∧
  handleSearch "business " (handleSearch "Bus" cf)
  = handleSearch "business " cf.
Proof.
  intros cf.
  assert (trim (toLowerCase "Bus") ≠ "") as H1 by discriminate.
  assert (trim (toLowerCase "business ") ≠ "") as H2 by discriminate.
  assert (occursIn (trim (toLowerCase "Bus")) (trim (toLowerCase "business ")))
    as H3 by (apply includes_occursIn; reflexivity).
  split; [exact H1|]. split; [exact H2|]. split; [exact H3|].
  destruct (searches_compose "Bus" "business " cf) as [_ H].
  destruct (H H1 H2) as (_ & _ & Hext). exact (Hext H3).
Defined.

(** ** What every reachable state satisfies *)

Section Reachable.

Lemma applyFilters_shownMatch (cf : CourseFilter) : shownMatch (applyFilters cf).
Proof. intros c Hc. by apply applyFilters_In in Hc as [_ Hc]. Qed.

Lemma handleSearch_shownMatch (s : string) (cf : CourseFilter) :
  shownMatch cf → shownMatch (handleSearch s cf).
Proof.
  intros Hinv. unfold handleSearch.
  destruct (trim (toLowerCase s) =? ""); [apply applyFilters_shownMatch|].
  intros c Hc; simpl in *. apply filter_In in Hc as [Hc _]. by apply Hinv.
Qed.

Lemma clearAllFilters_shownMatch (cf : CourseFilter) :
  shownMatch (clearAllFilters cf).
Proof.
  intros c _. apply courseMatches_lookup. intros k v. simpl.
  rewrite lookup_fmap. destruct (filters cf !! k); simpl; [|done].
  intros [= <-]. apply entryMatches_all.
Qed.

Lemma step_shownMatch (cf : CourseFilter) (op : Op) :
  reloads op = false → shownMatch cf → shownMatch (step cf op).
Proof.
  intros Hop Hinv. destruct op as [page|t v|nf|ft fv|typed|term| |]; simpl.
  - discriminate Hop.
  - apply applyFilters_shownMatch.
  - apply applyFilters_shownMatch.
  - unfold handleFilterClick. destruct ft, fv; try done.
    destruct (_ && _); [apply applyFilters_shownMatch | done].
  - unfold searchInputEvent. destruct (searchInput cf); [|done].
    by apply handleSearch_shownMatch.
  - by apply handleSearch_shownMatch.
  - apply clearAllFilters_shownMatch.
  - intros c [].
Qed.

Lemma run_shownMatch (ops : list Op) (cf : CourseFilter) :
  forallb (λ op, negb (reloads op)) ops = true →
  shownMatch cf → shownMatch (run ops cf).
Proof.
  revert cf. induction ops as [|op ops IH]; intros cf Hops Hinv; [done|].
  simpl in Hops. apply andb_true_iff in Hops as [Hop Hops].
  simpl. apply IH; [done|]. apply step_shownMatch; [|done].
  by apply negb_true_iff.
Qed.

Lemma step_valuesNonEmpty (cf : CourseFilter) (op : Op) :
  boundEvent op = true → valuesNonEmpty cf → valuesNonEmpty (step cf op).
Proof.
  intros Hop Hinv. destruct op as [page|t v|nf|ft fv|typed|term| |];
    try discriminate Hop; simpl.
  - unfold handleFilterClick. destruct ft as [t|], fv as [v|]; try done.
    destruct (truthy (Some t) && truthy (Some v)) eqn:Hg; [|done].
    apply andb_true_iff in Hg as [_ Hv]. simpl in Hv.
    intros k w. simpl. unfold assignProperty.
    destruct (t =? "__proto__"); [by apply (Hinv k)|].
    rewrite lookup_insert_Some.
    intros [[_ <-]|[_ Hk]]; [|by apply (Hinv k)].
    intros ->. discriminate Hv.
  - unfold searchInputEvent. destruct (searchInput cf); [|done].
    unfold handleSearch. by destruct (_ =? _).
  - intros k w. simpl. rewrite lookup_fmap.
    destruct (filters cf !! k); simpl; [|done]. by intros [= <-].
Qed.

Lemma run_valuesNonEmpty (ops : list Op) (cf : CourseFilter) :
  forallb boundEvent ops = true →
  valuesNonEmpty cf → valuesNonEmpty (run ops cf).
Proof.
  revert cf. induction ops as [|op ops IH]; intros cf Hops Hinv; [done|].
  simpl in Hops. apply andb_true_iff in Hops as [Hop Hops].
  simpl. apply IH; [done|]. by apply step_valuesNonEmpty.
Qed.

Lemma boundEvent_not_reloads (ops : list Op) :
  forallb boundEvent ops = true →
  forallb (λ op, negb (reloads op)) ops = true.
Proof.
  rewrite !forallb_forall. intros H op Hop.
  specialize (H op Hop). by destruct op.
Qed.

Lemma construct_shownMatch (page : list Course) (box : option string) :
  shownMatch (construct page box).
Proof.
  intros c _. apply courseMatches_lookup. intros k v Hkv. simpl in Hkv.
  rewrite (initialFilters_all k v Hkv). apply entryMatches_all.
Qed.

End Reachable.

(** X5: in every state reached without reloading the items, each shown
    item is one of the items and satisfies every stored dimension, also
    after searches. *)
Theorem shown_items_satisfy_filters
    (page : list Course) (box : option string) (ops : list Op) (c : Course) :
  forallb (λ op, negb (reloads op)) ops = true →
  In c (filteredCourses (run ops (construct page box))) →
  In c (courses (run ops (construct page box))) ∧
  ∀ k v, filters (run ops (construct page box)) !! k = Some v →
         codeEntry c k v.
Proof.
  intros Hops Hc. split.
  - assert (subsequenceInv (run ops (construct page box))) as Hsub
      by (apply run_inv; unfold subsequenceInv; simpl; reflexivity).
    apply list_elem_of_In. eapply sublist_subseteq; [exact Hsub|].
    by apply list_elem_of_In.
  - intros k v Hkv. apply entryMatches_codeEntry.
    pose proof (run_shownMatch ops _ Hops (construct_shownMatch page box)) as H.
    exact (proj1 (courseMatches_lookup _ _) (H c Hc) k v Hkv).
Qed.

Lemma shown_items_satisfy_filters_witness :
  let cf := run [CallUpdateFilter "level" "beginner"; TypeSearch "bus"]
              (construct Sample.page (Some "")) in
  In Sample.businessEnglish (filteredCourses cf) ∧
  codeEntry Sample.businessEnglish "level" "beginner".
Proof.
  intros cf.
  assert (In Sample.businessEnglish (filteredCourses cf)) as Hin
    by (vm_compute; by left).
  split; [exact Hin|].
  refine (proj2 (shown_items_satisfy_filters Sample.page (Some "")
            [CallUpdateFilter "level" "beginner"; TypeSearch "bus"]
            Sample.businessEnglish eq_refl Hin) "level" "beginner" _).
  by vm_compute.
Defined.

(** X6: when the state is only driven by the bound listeners (filter
    clicks, typing, the clear button), no stored value is empty, and an
    item whose attribute for a dimension is missing or empty is never shown
    while that dimension has a value other than "all". *)
Theorem bound_events_exclude_items_without_value
    (page : list Course) (box : option string) (ops : list Op) :
  forallb boundEvent ops = true →
  (∀ k v, filters (run ops (construct page box)) !! k = Some v → v ≠ "") ∧
  (∀ c k v, filters (run ops (construct page box)) !! k = Some v →
            v ≠ "all" → noValue c k →
            ¬ In c (filteredCourses (run ops (construct page box)))).
Proof.
  intros Hops.
  assert (valuesNonEmpty (run ops (construct page box))) as Hne.
  { apply run_valuesNonEmpty; [done|]. intros k v Hkv. simpl in Hkv.
    by rewrite (initialFilters_all k v Hkv). }
  split; [exact Hne|]. intros c k v Hkv Hall Hno Hc.
  pose proof (run_shownMatch ops _ (boundEvent_not_reloads ops Hops)
                (construct_shownMatch page box) c Hc) as Hm.
  pose proof (proj1 (courseMatches_lookup _ _) Hm k v Hkv) as He.
  apply entryMatches_codeEntry in He.
  destruct He as [?|[(s & Hs & Hcomma & _)|[Hs _]]]; [done| |].
  - destruct Hno as [Hno|Hno]; rewrite Hno in Hs; [done|].
    injection Hs as <-. discriminate Hcomma.
  - destruct Hno as [Hno|Hno]; rewrite Hno in Hs; [done|].
    injection Hs as <-. by apply (Hne k "").
Qed.

Lemma bound_events_exclude_items_without_value_witness :
  let ops := [ClickFilter (Some "level") (Some "beginner");
              ClickFilter (Some "level") (Some "")] in
  let cf := run ops (construct [Sample.emptyLevel; Sample.spanishTravel] None) in
  filters cf !! "level" = Some "beginner" ∧
  ¬ In Sample.emptyLevel (filteredCourses cf).
Proof.
  intros ops cf.
  assert (filters cf !! "level" = Some "beginner") as Hlevel
    by (vm_compute; reflexivity).
  split; [exact Hlevel|].
  refine (proj2 (bound_events_exclude_items_without_value
            [Sample.emptyLevel; Sample.spanishTravel] None ops eq_refl)
            Sample.emptyLevel "level" "beginner" Hlevel _ _).
  - discriminate.
  - right. reflexivity.
Defined.

(** ** After [destroy] *)

Section Destroyed.

Lemma step_stays_empty (cf : CourseFilter) (op : Op) :
  reloads op = false →
  courses cf = [] ∧ filteredCourses cf = [] →
  courses (step cf op) = [] ∧ filteredCourses (step cf op) = [].
Proof.
  intros Hop [Hc Hf]. destruct op as [page|t v|nf|ft fv|typed|term| |];
    simpl; try discriminate Hop; rewrite ?Hc, ?Hf; try done.
  - unfold handleFilterClick. destruct ft, fv; try done.
    destruct (_ && _); simpl; by rewrite ?Hc.
  - unfold searchInputEvent. destruct (searchInput cf); [|done].
    unfold handleSearch. destruct (_ =? _); simpl; by rewrite ?Hc, ?Hf.
  - unfold handleSearch. destruct (_ =? _); simpl; by rewrite ?Hc, ?Hf.
Qed.

End Destroyed.

(** X7: [destroy] empties both lists and leaves the filters in place;
    afterwards every operation other than a reload keeps both lists empty,
    while filter updates still reach the stored filters (under every name
    that an assignment can store, that is, every name but [__proto__]). *)
Theorem destroyed_stays_empty (ops : list Op) (cf : CourseFilter) :
  forallb (λ op, negb (reloads op)) ops = true →
  courses (run ops (destroy cf)) = [] ∧
  filteredCourses (run ops (destroy cf)) = [] ∧
  filters (destroy cf) = filters cf ∧
  ∀ t v, t ≠ "__proto__" →
         filters (updateFilter t v (run ops (destroy cf))) !! t = Some v.
Proof.
  intros Hops.
  assert (∀ s, courses s = [] ∧ filteredCourses s = [] →
               courses (run ops s) = [] ∧ filteredCourses (run ops s) = [])
    as Hrun.
  { induction ops as [|op ops IH]; intros s Hs; [done|].
    simpl in Hops. apply andb_true_iff in Hops as [Hop Hops].
    simpl. apply IH; [done|]. apply step_stays_empty; [|done].
    by apply negb_true_iff. }
  destruct (Hrun (destroy cf) (conj eq_refl eq_refl)) as [Hc Hf].
  split; [exact Hc|]. split; [exact Hf|]. split; [reflexivity|].
  intros t v Ht. simpl. rewrite assignProperty_other by done.
  apply lookup_insert_eq.
Qed.

Lemma destroyed_stays_empty_witness :
  let ops := [ClickClear; CallUpdateFilter "level" "beginner";
              CallHandleSearch ""] in
  filteredCourses (run ops (destroy (construct Sample.page None))) = [].
Proof.
  intros ops.
  exact (proj1 (proj2 (destroyed_stays_empty ops
                         (construct Sample.page None) eq_refl))).
Defined.

(** ** Values that a multi-valued attribute cannot match *)

Section Trimmed.

Lemma trimEnd_idemp (s : string) : trimEnd (trimEnd s) = trimEnd s.
Proof.
  induction s as [|a s IH]; simpl; [done|].
  destruct (trimEnd s) as [|b t] eqn:Ht.
  - destruct (isSpace a) eqn:Ha; simpl; [done | by rewrite Ha].
  - change (trimEnd (String a (String b t)))
      with (match trimEnd (String b t) with
            | EmptyString =>
                if isSpace a then EmptyString else String a EmptyString
            | r' => String a r'
            end).
    by rewrite IH.
Qed.

Lemma trimStart_id (s : string) :
  match s with String a _ => isSpace a = false | EmptyString => True end →
  trimStart s = s.
Proof. destruct s as [|a r]; simpl; [done|]. by intros ->. Qed.

Lemma trim_idemp (s : string) : trim (trim s) = trim s.
Proof.
  unfold trim at 1.
  rewrite (trimStart_id (trim s)) by apply trim_no_leading_space.
  unfold trim. apply trimEnd_idemp.
Qed.

Lemma trim_occursIn (s : string) : occursIn (trim s) s.
Proof.
  destruct (trim_decompose s) as [(l & r & Hs & _) _]. by exists l, r.
Qed.

Lemma trim_keeps_free (s t : string) :
  includes s t = false → includes (trim s) t = false.
Proof.
  intros Hs. destruct (includes (trim s) t) eqn:Ht; [|done].
  apply includes_occursIn in Ht.
  pose proof (occursIn_trans _ _ _ Ht (trim_occursIn s)) as H.
  apply includes_occursIn in H. congruence.
Qed.

End Trimmed.

(** X8: against an attribute that contains a comma, a selected value other
    than "all" can only match when it is free of commas and of white space
    at both ends: the pieces are trimmed, the selected value is not. *)
Theorem multi_valued_attribute_needs_clean_value
    (c : Course) (k v s : string) :
  courseValue c k = Some s →
  includes s "," = true →
  entryMatches c k v = true →
  v = "all" ∨ (trim v = v ∧ includes v "," = false).
Proof.
  intros Hs Hcomma He. apply entryMatches_codeEntry in He.
  destruct He as [?|[(s' & Hs' & _ & Hin)|[Hv Hno]]]; [by left| |].
  - right. apply in_map_iff in Hin as (p & <- & Hp). split.
    + apply trim_idemp.
    + apply trim_keeps_free. by apply (split_pieces_free "," s').
  - rewrite Hs in Hv. injection Hv as ->. congruence.
Qed.

Lemma multi_valued_attribute_needs_clean_value_witness :
  entryMatches Sample.mixedLevels "level" "advanced" = true ∧
  trim "advanced" = "advanced" ∧
  entryMatches Sample.mixedLevels "level" " advanced" = false.
Proof.
  assert (entryMatches Sample.mixedLevels "level" "advanced" = true) as He
    by reflexivity.
  split; [exact He|]. split; [|reflexivity].
  destruct (multi_valued_attribute_needs_clean_value Sample.mixedLevels
              "level" "advanced" "beginner, advanced" eq_refl eq_refl He)
    as [H|[H _]]; [discriminate H | exact H].
Defined.

(** ** Keyboard navigation *)

Section Keys.

Lemma jsRemainder_next (i n : Z) :
  (0 ≤ i < n)%Z →
  jsRemainder (i + 1) n = Some (if (i =? n - 1)%Z then 0 else i + 1)%Z.
Proof.
  intros Hi. unfold jsRemainder.
  destruct (Z.eqb_spec n 0); [lia|]. f_equal.
  destruct (Z.eqb_spec i (n - 1)) as [->|Hne].
  - replace (n - 1 + 1)%Z with n by lia. by apply Z.rem_same.
  - apply Z.rem_small. lia.
Qed.

Lemma jsRemainder_previous (i n : Z) :
  (0 ≤ i < n)%Z →
  jsRemainder (i - 1 + n) n = Some (if (i =? 0)%Z then n - 1 else i - 1)%Z.
Proof.
  intros Hi. unfold jsRemainder.
  destruct (Z.eqb_spec n 0); [lia|]. f_equal.
  destruct (Z.eqb_spec i 0) as [->|Hne].
  - replace (0 - 1 + n)%Z with (n - 1)%Z by lia. apply Z.rem_small. lia.
  - replace (i - 1 + n)%Z with ((i - 1) + 1 * n)%Z by lia.
    rewrite Z.rem_add by nia. apply Z.rem_small. lia.
Qed.

Lemma focusButton_in_range (i n : Z) :
  (0 ≤ i < n)%Z → focusButton n (Some i) = KeyFocus i.
Proof.
  intros Hi. unfold focusButton.
  destruct (Z.leb_spec 0 i); [|lia]. destruct (Z.ltb_spec i n); [done|lia].
Qed.

Lemma keydown_right (i n : Z) :
  (0 ≤ i < n)%Z →
  handleFilterKeydown true "ArrowRight" i n
  = KeyFocus (if (i =? n - 1)%Z then 0 else i + 1)%Z.
Proof.
  intros Hi. unfold handleFilterKeydown; simpl.
  rewrite jsRemainder_next by done.
  apply focusButton_in_range. destruct (Z.eqb_spec i (n - 1)); lia.
Qed.

Lemma keydown_left (i n : Z) :
  (0 ≤ i < n)%Z →
  handleFilterKeydown true "ArrowLeft" i n
  = KeyFocus (if (i =? 0)%Z then n - 1 else i - 1)%Z.
Proof.
  intros Hi. unfold handleFilterKeydown; simpl.
  rewrite jsRemainder_previous by done.
  apply focusButton_in_range. destruct (Z.eqb_spec i 0); lia.
Qed.

End Keys.

(** X9: for a button at position [i] among the [n] filter buttons of its
    group, the arrow keys move the focus by one position and wrap around
    at both ends, Home and End go to the first and the last button, and no
    key press reaches a position outside the group. *)
Theorem keydown_moves_within_group (key : string) (i n : Z) :
  (0 ≤ i < n)%Z →
  handleFilterKeydown true "ArrowRight" i n
    = KeyFocus (if (i =? n - 1)%Z then 0 else i + 1)%Z ∧
  handleFilterKeydown true "ArrowDown" i n
    = handleFilterKeydown true "ArrowRight" i n ∧
  handleFilterKeydown true "ArrowLeft" i n
    = KeyFocus (if (i =? 0)%Z then n - 1 else i - 1)%Z ∧
  handleFilterKeydown true "ArrowUp" i n
    = handleFilterKeydown true "ArrowLeft" i n ∧
  handleFilterKeydown true "Home" i n = KeyFocus 0 ∧
  handleFilterKeydown true "End" i n = KeyFocus (n - 1) ∧
  (handleFilterKeydown true key i n = KeyIgnored ∨
   ∃ j, handleFilterKeydown true key i n = KeyFocus j ∧ (0 ≤ j < n)%Z).
Proof.
  intros Hi.
  pose proof (keydown_right i n Hi) as Hr.
  pose proof (keydown_left i n Hi) as Hl.
  assert (handleFilterKeydown true "Home" i n = KeyFocus 0) as Hh.
  { change (handleFilterKeydown true "Home" i n)
      with (focusButton n (Some 0%Z)).
    apply focusButton_in_range. lia. }
  assert (handleFilterKeydown true "End" i n = KeyFocus (n - 1)) as He.
  { change (handleFilterKeydown true "End" i n)
      with (focusButton n (Some (n - 1)%Z)).
    apply focusButton_in_range. lia. }
  split; [exact Hr|]. split; [reflexivity|]. split; [exact Hl|].
  split; [reflexivity|]. split; [exact Hh|]. split; [exact He|].
  unfold handleFilterKeydown. cbn [negb].
  destruct ((key =? "ArrowRight") || (key =? "ArrowDown")).
  { right. rewrite jsRemainder_next by done. eexists. split.
    - apply focusButton_in_range. destruct (Z.eqb_spec i (n - 1)); lia.
    - destruct (Z.eqb_spec i (n - 1)); lia. }
  destruct ((key =? "ArrowLeft") || (key =? "ArrowUp")).
  { right. rewrite jsRemainder_previous by done. eexists. split.
    - apply focusButton_in_range. destruct (Z.eqb_spec i 0); lia.
    - destruct (Z.eqb_spec i 0); lia. }
  destruct (key =? "Home").
  { right. exists 0%Z. split; [apply focusButton_in_range|]; lia. }
  destruct (key =? "End").
  { right. exists (n - 1)%Z. split; [apply focusButton_in_range|]; lia. }
  by left.
Qed.

Lemma keydown_moves_within_group_witness :
  handleFilterKeydown true "ArrowRight" 2 3 = KeyFocus 0 ∧
  handleFilterKeydown true "ArrowLeft" 0 3 = KeyFocus 2.
Proof.
  assert (0 ≤ 2 < 3)%Z as H2 by lia.
  assert (0 ≤ 0 < 3)%Z as H0 by lia.
  split.
  - exact (proj1 (keydown_moves_within_group "ArrowRight" 2 3 H2)).
  - exact (proj1 (proj2 (proj2 (keydown_moves_within_group "ArrowLeft" 0 3 H0)))).
Defined.

(** X10: within a group, the arrow keys undo each other: after ArrowRight
    (or ArrowDown), ArrowLeft (or ArrowUp) leads back to the button the
    focus came from, and the other way round. *)
Theorem arrow_keys_are_inverse (i n : Z) :
  (0 ≤ i < n)%Z →
  (∃ j, handleFilterKeydown true "ArrowRight" i n = KeyFocus j ∧
        handleFilterKeydown true "ArrowLeft" j n = KeyFocus i) ∧
  (∃ j, handleFilterKeydown true "ArrowLeft" i n = KeyFocus j ∧
        handleFilterKeydown true "ArrowRight" j n = KeyFocus i).
Proof.
  intros Hi. split.
  - eexists. split; [by apply keydown_right|].
    rewrite keydown_left by (destruct (Z.eqb_spec i (n - 1)); lia).
    f_equal. destruct (Z.eqb_spec i (n - 1)); simpl; [lia|].
    destruct (Z.eqb_spec (i + 1) 0); lia.
  - eexists. split; [by apply keydown_left|].
    rewrite keydown_right by (destruct (Z.eqb_spec i 0); lia).
    f_equal. destruct (Z.eqb_spec i 0).
    + destruct (Z.eqb_spec (n - 1) (n - 1)); lia.
    + destruct (Z.eqb_spec (i - 1) (n - 1)); lia.
Qed.

Lemma arrow_keys_are_inverse_witness :
  ∃ j, handleFilterKeydown true "ArrowRight" 2 3 = KeyFocus j ∧
       handleFilterKeydown true "ArrowLeft" j 3 = KeyFocus 2.
Proof.
  assert (0 ≤ 2 < 3)%Z as H by lia.
  exact (proj1 (arrow_keys_are_inverse 2 3 H)).
Defined.

(** ** The filter buttons *)

Section Buttons.

Implicit Types (c : Control) (cs : list Control).

Lemma updateActiveButtons_lookup cs i b g j :
  cs !! i = Some b → closestGroup b = Some g →
  updateActiveButtons i cs !! j =
  (λ c, if decide (j = i) then setPressed "true" (setActive true c)
        else if groupButton g c then setPressed "false" (setActive false c)
        else c) <$> cs !! j.
Proof.
  intros Hi Hg. unfold updateActiveButtons. rewrite Hi, Hg.
  destruct (decide (j = i)) as [->|Hne].
  - rewrite list_lookup_alter, list_lookup_fmap, list_lookup_alter,
      list_lookup_fmap, Hi, !decide_True by done. simpl.
    destruct b as [fb df dv cg ig ac ap ro ti tx]; unfold groupButton; simpl.
    destruct (fb && bool_decide (g ∈ ig)) eqn:E; simpl; rewrite ?E; done.
  - rewrite list_lookup_alter_ne, list_lookup_fmap, list_lookup_alter_ne,
      list_lookup_fmap by done.
    destruct (cs !! j) as [c|]; simpl; [|done]. f_equal.
    destruct c as [fb df dv cg ig ac ap ro ti tx]; unfold groupButton; simpl.
    destruct (fb && bool_decide (g ∈ ig)) eqn:E; simpl; rewrite ?E; done.
Qed.

Lemma updateActiveButtons_no_group cs i b :
  cs !! i = Some b → closestGroup b = None → updateActiveButtons i cs = cs.
Proof. intros Hi Hg. unfold updateActiveButtons. by rewrite Hi, Hg. Qed.

Lemma clearButtons_lookup cs j :
  clearButtons cs !! j =
  (λ c, if bool_decide (dataValue c = Some "all")
        then setPressed "true" (setActive true c)
        else if isFilterBtn c then setPressed "false" (setActive false c)
        else c) <$> cs !! j.
Proof.
  unfold clearButtons. rewrite !list_lookup_fmap.
  destruct (cs !! j) as [c|]; simpl; [|done]. f_equal.
  destruct c as [fb df dv cg ig ac ap ro ti tx]; simpl.
  destruct fb; simpl; by destruct (bool_decide (dv = Some "all")).
Qed.

Lemma setupButton_accessible c : accessibleButton (setupButton c).
Proof.
  unfold accessibleButton, setupButton.
  destruct (isFilterBtn c) eqn:Hf; simpl; [|congruence].
  intros _. split; [done|]. split; [done|]. by destruct (tabindexAttr c).
Qed.

Lemma updateActiveButtons_accessible cs i :
  Forall accessibleButton cs → Forall accessibleButton (updateActiveButtons i cs).
Proof.
  intros Hcs. destruct (cs !! i) as [b|] eqn:Hi;
    [|unfold updateActiveButtons; by rewrite Hi].
  destruct (closestGroup b) as [g|] eqn:Hg;
    [|by rewrite (updateActiveButtons_no_group cs i b)].
  apply Forall_lookup. intros j c' Hj.
  rewrite (updateActiveButtons_lookup cs i b g j Hi Hg) in Hj.
  destruct (cs !! j) as [c|] eqn:Hc; simpl in Hj; [|done].
  injection Hj as <-.
  pose proof (proj1 (Forall_lookup _ _) Hcs j c Hc) as Hacc.
  unfold accessibleButton in *.
  destruct (decide (j = i)); [|destruct (groupButton g c)]; simpl; try done;
    intros Hf; destruct (Hacc Hf) as (_ & ? & ?); done.
Qed.

Lemma clearButtons_accessible cs :
  Forall accessibleButton cs → Forall accessibleButton (clearButtons cs).
Proof.
  intros Hcs. apply Forall_lookup. intros j c' Hj.
  rewrite clearButtons_lookup in Hj.
  destruct (cs !! j) as [c|] eqn:Hc; simpl in Hj; [|done].
  injection Hj as <-.
  pose proof (proj1 (Forall_lookup _ _) Hcs j c Hc) as Hacc.
  unfold accessibleButton in *.
  destruct (bool_decide (dataValue c = Some "all")); simpl.
  - intros Hf. by destruct (Hacc Hf) as (_ & ? & ?).
  - destruct (isFilterBtn c) eqn:Hfb; simpl; [|congruence].
    intros _. by destruct (Hacc eq_refl) as (_ & ? & ?).
Qed.

Lemma uiStep_accessible (ui : Ui) (ev : UiEvent) :
  Forall accessibleButton (controls (document ui)) →
  Forall accessibleButton (controls (document (uiStep ui ev))).
Proof.
  intros Hinv. destruct ev as [i|typed| | |i|]; simpl; try done.
  - unfold clickControl. destruct (controls (document ui) !! i); [|done].
    destruct (_ && _); [|done]. simpl. by apply updateActiveButtons_accessible.
  - unfold typeInSearchBox. by destruct (searchInput (component ui)).
  - unfold searchTimerElapsed, debouncedSearch; simpl.
    by destruct (searchTimer ui).
  - by apply clearButtons_accessible.
Qed.

End Buttons.

(** X11: once the instance is set up, every filter button has the role
    "button", can take the focus, and has an [aria-pressed] attribute that
    says "true" exactly when the button carries the active class; clicks,
    searches, clearing, timers and [destroy] keep it so. *)
Theorem buttons_stay_accessible
    (cards : list Course) (box : option string) (pg : Page)
    (evs : list UiEvent) :
  Forall accessibleButton (controls (document (uiRun evs (start cards box pg)))).
Proof.
  assert (Forall accessibleButton (controls (document (start cards box pg))))
    as Hstart.
  { simpl. apply Forall_fmap, Forall_true. intros c. apply setupButton_accessible. }
  revert Hstart. generalize (start cards box pg).
  induction evs as [|ev evs IH]; intros ui Hui; [done|].
  simpl. apply IH. by apply uiStep_accessible.
Qed.

(** X12: a click on a filter button that names a dimension and a value,
    and that sits in the filter group found from it, leaves that button as
    the only active filter button of the group, with [aria-pressed] "true"
    on it and "false" on the others; elements outside the group keep their
    state. *)
Theorem click_selects_one_button_per_group
    (ui : Ui) (i g : nat) (button : Control) :
  controls (document ui) !! i = Some button →
  isFilterBtn button = true →
  truthy (dataFilter button) = true →
  truthy (dataValue button) = true →
  closestGroup button = Some g →
  ∀ j c, controls (document ui) !! j = Some c →
    ∃ c', controls (document (clickControl i ui)) !! j = Some c' ∧
      (j = i → activeClass c' = true ∧ ariaPressed c' = Some "true") ∧
      (j ≠ i → groupButton g c = true →
       activeClass c' = false ∧ ariaPressed c' = Some "false") ∧
      (j ≠ i → groupButton g c = false → c' = c).
Proof.
  intros Hi Hf Ht Hv Hg j c Hj.
  unfold clickControl. rewrite Hi, Hf, Ht, Hv. simpl.
  rewrite (updateActiveButtons_lookup _ i button g j Hi Hg), Hj. simpl.
  eexists. split; [reflexivity|].
  destruct (decide (j = i)); [|destruct (groupButton g c)]; simpl;
    repeat split; intros; congruence.
Qed.

Lemma click_selects_one_button_per_group_witness :
  ∃ c', controls (document (clickControl 1 SamplePage.running)) !! 0 = Some c' ∧
        activeClass c' = false ∧ ariaPressed c' = Some "false".
Proof.
  destruct (click_selects_one_button_per_group SamplePage.running 1 0
              (setupButton (SamplePage.button "level" "beginner" 0 false))
              eq_refl eq_refl eq_refl eq_refl eq_refl
              0 (setupButton (SamplePage.button "level" "all" 0 true)) eq_refl)
    as (c' & Hc' & _ & Hother & _).
  exists c'. split; [exact Hc'|]. apply Hother; [lia | reflexivity].
Defined.

(** X13: after clearing, a filter button is active and pressed exactly
    when its [data-value] is "all". *)
Theorem clear_activates_all_buttons (ui : Ui) (j : nat) (c : Control) :
  controls (document ui) !! j = Some c →
  isFilterBtn c = true →
  ∃ c', controls (document (clearAll ui)) !! j = Some c' ∧
    (activeClass c' = true ↔ dataValue c = Some "all") ∧
    (ariaPressed c' = Some "true" ↔ dataValue c = Some "all") ∧
    dataValue c' = dataValue c ∧ isFilterBtn c' = true.
Proof.
  intros Hj Hf. simpl. rewrite clearButtons_lookup, Hj. simpl.
  eexists. split; [reflexivity|].
  destruct (bool_decide_reflect (dataValue c = Some "all")) as [Hall|Hall];
    simpl; rewrite ?Hf; simpl; repeat split; try done; intros; congruence.
Qed.

Lemma clear_activates_all_buttons_witness :
  let ui := clickControl 1 SamplePage.running in
  ∃ c c', controls (document ui) !! 1 = Some c ∧ activeClass c = true ∧
          controls (document (clearAll ui)) !! 1 = Some c' ∧
          ¬ activeClass c' = true.
Proof.
  intros ui.
  assert (∃ c, controls (document ui) !! 1 = Some c ∧ activeClass c = true
               ∧ isFilterBtn c = true ∧ dataValue c = Some "beginner")
    as (c & Hc & Hact & Hf & Hv) by (eexists; by vm_compute).
  destruct (clear_activates_all_buttons ui 1 c Hc Hf)
    as (c' & Hc' & Hiff & _).
  exists c, c'. split; [exact Hc|]. split; [exact Hact|]. split; [exact Hc'|].
  intros H. apply Hiff in H. rewrite Hv in H. discriminate H.
Defined.

(** ** Rendering *)

Section Rendering.

Lemma renderCourses_card (cf : CourseFilter) (pg : Page) (i : nat) :
  cardStyles (renderCourses cf pg) !! i
  = renderCard cf i <$> cardStyles pg !! i.
Proof. simpl. apply list_lookup_imap. Qed.

Lemma renderCard_agrees (cf : CourseFilter) (styles : list CardStyle)
    (i : nat) (c : Course) (s : CardStyle) :
  courses cf !! i = Some c →
  imap (renderCard cf) styles !! i = Some s →
  if bool_decide (c ∈ filteredCourses cf)
  then display s = "block" ∧ opacity s = "1" ∧ hiddenClass s = false
  else opacity s = "0".
Proof.
  intros Hc. rewrite list_lookup_imap.
  destruct (styles !! i) as [s0|]; simpl; [|done].
  intros [= <-]. unfold renderCard. rewrite Hc.
  by destruct (bool_decide (c ∈ filteredCourses cf)).
Qed.

Lemma hideTimeout_shown (s : CardStyle) : opacity s = "1" → hideTimeout s = s.
Proof. intros H. unfold hideTimeout. by rewrite H. Qed.

Lemma uiStep_viewAgrees (ui : Ui) (ev : UiEvent) :
  viewAgrees ui → viewAgrees (uiStep ui ev).
Proof.
  intros Hinv. destruct ev as [j|typed| | |j|]; simpl.
  - unfold clickControl.
    destruct (controls (document ui) !! j) as [button|]; [|done].
    destruct (_ && _); [|done].
    intros i c s Hc Hs. simpl in Hc, Hs. by eapply renderCard_agrees.
  - unfold typeInSearchBox. destruct (searchInput (component ui)); [|done].
    exact Hinv.
  - unfold searchTimerElapsed, debouncedSearch; simpl.
    destruct (searchTimer ui); simpl.
    + intros i c s Hc Hs. simpl in Hc, Hs. by eapply renderCard_agrees.
    + exact Hinv.
  - intros i c s Hc Hs. simpl in Hc, Hs. by eapply renderCard_agrees.
  - intros i c s Hc Hs. simpl in *.
    rewrite list_lookup_alter in Hs.
    destruct (decide (j = i)) as [->|Hne]; [|by apply (Hinv i c s)].
    destruct (cardStyles (document ui) !! i) as [s0|] eqn:Hs0; simpl in Hs;
      [|done].
    injection Hs as <-. specialize (Hinv i c s0 Hc Hs0).
    destruct (bool_decide (c ∈ filteredCourses (component ui))).
    + destruct Hinv as (? & Hop & ?). by rewrite hideTimeout_shown.
    + unfold hideTimeout. by rewrite Hinv.
  - intros i c s Hc. simpl in Hc. by rewrite lookup_nil in Hc.
Qed.

Lemma uiRun_viewAgrees (evs : list UiEvent) (ui : Ui) :
  viewAgrees ui → viewAgrees (uiRun evs ui).
Proof.
  revert ui. induction evs as [|ev evs IH]; intros ui Hui; [done|].
  simpl. apply IH. by apply uiStep_viewAgrees.
Qed.

Lemma start_viewAgrees (cards : list Course) (box : option string) (pg : Page) :
  viewAgrees (start cards box pg).
Proof.
  intros i c s Hc Hs. simpl in Hc, Hs. by eapply renderCard_agrees.
Qed.

End Rendering.

(** X14: in every state an instance reaches through clicks, typing, the
    search timer, the clear button, hide timers and [destroy], the cards
    follow the filtered list: a card of the list is displayed with full
    opacity and without the hidden class, every other card of the
    component has opacity zero. *)
Theorem view_follows_filtered_list
    (cards : list Course) (box : option string) (pg : Page)
    (evs : list UiEvent) :
  viewAgrees (uiRun evs (start cards box pg)).
Proof. apply uiRun_viewAgrees, start_viewAgrees. Qed.

(** X15: when the timer set by [hideCourse] runs out, a card outside the
    filtered list gets [display: none] and the hidden class; a card that is
    in the list again by then is left as it is, however late the timer. *)
Theorem hide_timer_only_hides_filtered_out_cards
    (cards : list Course) (box : option string) (pg : Page)
    (evs : list UiEvent) (i : nat) (c : Course) (s : CardStyle) :
  let ui := uiRun evs (start cards box pg) in
  courses (component ui) !! i = Some c →
  cardStyles (document ui) !! i = Some s →
  cardStyles (document (hideTimerElapsed i ui)) !! i
  = Some (if bool_decide (c ∈ filteredCourses (component ui)) then s
          else {| display := "none"; opacity := "0";
                  transform := transform s; hiddenClass := true |}).
Proof.
  intros ui Hc Hs. simpl. rewrite list_lookup_alter, decide_True, Hs by done.
  simpl. f_equal.
  pose proof (uiRun_viewAgrees evs _ (start_viewAgrees cards box pg) i c s Hc Hs)
    as Hinv. fold ui in Hinv.
  destruct (bool_decide (c ∈ filteredCourses (component ui))).
  - destruct Hinv as (_ & Hop & _). by apply hideTimeout_shown.
  - unfold hideTimeout. by rewrite Hinv.
Qed.

Lemma hide_timer_only_hides_filtered_out_cards_witness :
  let ui := uiRun [ClickOn 1] (start Sample.page (Some "") SamplePage.parts) in
  ∃ s, cardStyles (document (hideTimerElapsed 2 ui)) !! 2 = Some s ∧
       display s = "none" ∧ hiddenClass s = true.
Proof.
  intros ui.
  assert (∃ s, cardStyles (document ui) !! 2 = Some s) as [s Hs]
    by (eexists; by vm_compute).
  assert (courses (component ui) !! 2 = Some Sample.germanExam) as Hc
    by reflexivity.
  pose proof (hide_timer_only_hides_filtered_out_cards Sample.page (Some "")
                SamplePage.parts [ClickOn 1] 2 Sample.germanExam s Hc Hs) as H.
  assert (bool_decide (Sample.germanExam ∈ filteredCourses (component ui)) = false)
    as Hout by (by vm_compute).
  cbv zeta in H. fold ui in H. rewrite Hout in H.
  eexists. split; [exact H|]. split; reflexivity.
Defined.

(** X16: what [renderCourses] reports is consistent with the cards when
    the filtered list is a subsequence of the items and every item has its
    card: the empty state is displayed (and announced as not hidden)
    exactly when the filtered list is empty, which is exactly when every
    card has opacity zero; and the counter reads "Showing n of m courses"
    with n the length of the filtered list, m the number of items, and n
    at most m. *)
Theorem render_reports_what_is_shown (cf : CourseFilter) (pg : Page) :
  subsequenceInv cf →
  length (cardStyles pg) = length (courses cf) →
  (∀ e, emptyState (renderCourses cf pg) = Some e →
        (emptyDisplay e = "block" ↔ filteredCourses cf = []) ∧
        (emptyDisplay e = "block" ↔
         ∀ i s, cardStyles (renderCourses cf pg) !! i = Some s →
                opacity s = "0") ∧
        (emptyAriaHidden e = Some "false" ↔ emptyDisplay e = "block")) ∧
  (∀ text, filterResultsCount (renderCourses cf pg) = Some text →
           text = "Showing " ++ pretty (length (filteredCourses cf)) ++ " of "
                  ++ pretty (length (courses cf)) ++ " courses" ∧
           (length (filteredCourses cf) ≤ length (courses cf))%nat).
Proof.
  intros Hsub Hlen.
  assert (filteredCourses cf = [] ↔
          ∀ i s, cardStyles (renderCourses cf pg) !! i = Some s →
                 opacity s = "0") as Hcards.
  { split.
    - intros Hnil i s. rewrite renderCourses_card.
      destruct (cardStyles pg !! i) as [s0|] eqn:Hs0; simpl; [|done].
      intros [= <-]. unfold renderCard.
      destruct (courses cf !! i) as [c|] eqn:Hc.
      + rewrite Hnil. reflexivity.
      + apply lookup_ge_None in Hc. apply lookup_lt_Some in Hs0. lia.
    - intros Hall. destruct (filteredCourses cf) as [|c l] eqn:Hf; [done|].
      exfalso.
      assert (c ∈ courses cf) as Hin.
      { eapply sublist_subseteq; [exact Hsub|]. rewrite Hf. by left. }
      apply list_elem_of_lookup in Hin as [i Hi].
      assert (is_Some (cardStyles pg !! i)) as [s0 Hs0].
      { apply lookup_lt_is_Some. rewrite Hlen. by apply lookup_lt_Some in Hi. }
      specialize (Hall i (renderCard cf i s0)).
      rewrite renderCourses_card, Hs0 in Hall. specialize (Hall eq_refl).
      unfold renderCard in Hall. rewrite Hi, Hf in Hall.
      rewrite bool_decide_eq_true_2 in Hall by (by left).
      discriminate Hall. }
  split.
  - intros e. simpl. destruct (emptyState pg); simpl; [|done].
    intros [= <-]. rewrite <- Hcards.
    destruct (filteredCourses cf); simpl; repeat split; done.
  - intros text. simpl. destruct (filterResultsCount pg); simpl; [|done].
    intros [= <-]. split; [done|]. by apply sublist_length.
Qed.

Lemma render_reports_what_is_shown_witness :
  let cf := updateFilter "level" "expert" (construct Sample.page None) in
  ∃ e, emptyState (renderCourses cf SamplePage.parts) = Some e ∧
       emptyDisplay e = "block" ∧
       filterResultsCount (renderCourses cf SamplePage.parts)
       = Some "Showing 0 of 3 courses".
Proof.
  intros cf.
  assert (subsequenceInv cf) as Hsub by apply applyFilters_inv.
  assert (length (cardStyles SamplePage.parts) = length (courses cf)) as Hlen
    by reflexivity.
  destruct (render_reports_what_is_shown cf SamplePage.parts Hsub Hlen)
    as [Hempty Hcount].
  eexists. split; [reflexivity|]. split.
  - apply (Hempty _ eq_refl). by vm_compute.
  - destruct (Hcount _ eq_refl) as [Htext _]. by vm_compute.
Defined.

(** ** The debounced search *)

Section Debounced.

Context {A S : Type} (func : A → S → S).

Lemma debounceRun_app (evs1 evs2 : list (@DebounceEvent A)) (st : Pending * S) :
  debounceRun func (evs1 ++ evs2) st
  = debounceRun func evs2 (debounceRun func evs1 st).
Proof. apply fold_left_app. Qed.

Lemma debounceRun_invokes (burst : list A) (st : Pending * S) :
  (debounceRun func (map Invoke burst) st).2 = st.2.
Proof.
  revert st. induction burst as [|a burst IH]; intros st; [done|].
  simpl. by rewrite IH.
Qed.

End Debounced.

(** X17: however many calls of a debounced function precede the moment
    its timer runs out, the wrapped function runs once, with the arguments
    of the last call; when the timer has run out, or was never set, nothing
    more runs. *)
Theorem debounce_runs_last_call_once {A S : Type} (func : A → S → S)
    (burst : list A) (a : A) (st : Pending * S) :
  debounceRun func (map Invoke burst ++ [Invoke a; Elapse]) st
  = (None, func a st.2) ∧
  debounceRun func (map Invoke burst ++ [Invoke a; Elapse; Elapse]) st
  = (None, func a st.2) ∧
  debounceRun func [Elapse] (None, st.2) = (None, st.2).
Proof.
  rewrite !debounceRun_app. simpl.
  by rewrite (debounceRun_invokes func burst st).
Qed.

Section TypingBurst.

Lemma typing_keeps_lists (vs : list string) (ui : Ui) :
  is_Some (searchInput (component ui)) →
  let ui' := uiRun (map TypeInBox vs) ui in
  filters (component ui') = filters (component ui) ∧
  courses (component ui') = courses (component ui) ∧
  filteredCourses (component ui') = filteredCourses (component ui) ∧
  is_Some (searchInput (component ui')).
Proof.
  revert ui. induction vs as [|v vs IH]; intros ui Hbox; [done|].
  simpl. destruct Hbox as [b Hb].
  assert (typeInSearchBox v ui =
          {| component :=
               {| filters := filters (component ui);
                  courses := courses (component ui);
                  filteredCourses := filteredCourses (component ui);
                  searchInput := Some v |};
             document := document ui;
             searchTimer := Some tt |}) as Hty
    by (unfold typeInSearchBox; by rewrite Hb).
  rewrite Hty. specialize (IH _ (mk_is_Some _ _ eq_refl : is_Some (searchInput
    (component {| component :=
               {| filters := filters (component ui);
                  courses := courses (component ui);
                  filteredCourses := filteredCourses (component ui);
                  searchInput := Some v |};
             document := document ui;
             searchTimer := Some tt |})))).
  exact IH.
Qed.

Lemma or_empty_Some (v : string) : or_empty (Some v) = v.
Proof. by destruct v. Qed.

End TypingBurst.

(** X18: on a page with a search box, a burst of edits followed by the
    timer leads to one search, for the content the box has at the end: the
    component is in the state [handleSearch] gives for that content, and
    no timer is left. *)
Theorem typing_burst_searches_once
    (vs : list string) (v : string) (ui : Ui) :
  is_Some (searchInput (component ui)) →
  component (uiRun (map TypeInBox vs ++ [TypeInBox v; SearchTimerElapsed]) ui)
  = searchInputEvent v (component ui) ∧
  searchTimer (uiRun (map TypeInBox vs ++ [TypeInBox v; SearchTimerElapsed]) ui)
  = None.
Proof.
  intros Hbox. unfold uiRun. rewrite fold_left_app. fold (uiRun (map TypeInBox vs) ui).
  destruct (typing_keeps_lists vs ui Hbox) as (Hf & Hc & Hfc & [b Hb]).
  destruct Hbox as [b0 Hb0].
  simpl. unfold typeInSearchBox. rewrite Hb. simpl.
  unfold searchInputEvent. rewrite Hb0.
  rewrite or_empty_Some, Hf, Hc, Hfc. done.
Qed.

Lemma typing_burst_searches_once_witness :
  component (uiRun (map TypeInBox ["b"; "bu"] ++ [TypeInBox "bus"; SearchTimerElapsed])
               SamplePage.running)
  = searchInputEvent "bus" (component SamplePage.running).
Proof.
  exact (proj1 (typing_burst_searches_once ["b"; "bu"] "bus" SamplePage.running
                  (mk_is_Some _ _ eq_refl))).
Defined.

(** ** The live region and the set-up *)

Section LiveRegion.

Lemma uiStep_no_region (ui : Ui) (ev : UiEvent) :
  liveRegion (document ui) = None →
  liveRegion (document (uiStep ui ev)) = None.
Proof.
  intros Hnone. destruct ev as [i|typed| | |i|]; simpl; try done.
  - unfold clickControl. destruct (controls (document ui) !! i); [|done].
    destruct (_ && _); [|done]. simpl. by rewrite Hnone.
  - unfold typeInSearchBox. by destruct (searchInput (component ui)).
  - unfold searchTimerElapsed, debouncedSearch; simpl.
    by destruct (searchTimer ui).
  - by rewrite Hnone.
Qed.

Lemma setupButton_idemp (c : Control) :
  setupButton (setupButton c) = setupButton c.
Proof.
  unfold setupButton. destruct (isFilterBtn c) eqn:Hf; simpl; [|by rewrite Hf].
  by destruct (tabindexAttr c).
Qed.

End LiveRegion.

(** X19: starting an instance always leaves a live region that carries
    the start-up message, also on a page that had none; after [destroy]
    the region is gone and no later event brings an announcement back. *)
Theorem live_region_lifecycle
    (cards : list Course) (box : option string) (pg : Page)
    (ui : Ui) (evs : list UiEvent) :
  liveRegion (document (start cards box pg))
  = Some "Course filter initialized. Use filter buttons to refine results." ∧
  liveRegion (document (uiRun evs (destroyAll ui))) = None.
Proof.
  split.
  - simpl. by destruct (liveRegion pg).
  - assert (liveRegion (document (destroyAll ui)) = None) as H by reflexivity.
    revert H. generalize (destroyAll ui).
    induction evs as [|ev evs IH]; intros u Hu; [done|].
    simpl. apply IH. by apply uiStep_no_region.
Qed.

Section Labels.

Lemma labelGroups_spec (suffix : nat → string) (gs : list FilterGroup)
    (legends : list (option string)) (drawn : nat) :
  ∃ gs' legends' drawn',
    labelGroups suffix gs legends drawn = (gs', legends', drawn') ∧
    length legends' = length legends ∧
    (∀ l, (∀ j g, gs !! j = Some g → groupLegend g ≠ Some l) →
          legends' !! l = legends !! l) ∧
    (∀ j g, gs !! j = Some g → groupLegend g = None → gs' !! j = Some g) ∧
    (∀ j g l, gs !! j = Some g → groupLegend g = Some l →
       ∃ n, gs' !! j = Some {| groupRole := Some "group";
                               groupLabelledBy := Some ("filter-group-" ++ suffix n);
                               groupLegend := Some l |} ∧
            ((l < length legends)%nat →
             (∀ j' g', (j < j')%nat → gs !! j' = Some g' →
                       groupLegend g' ≠ Some l) →
             legends' !! l = Some (Some ("filter-group-" ++ suffix n)))).
Proof.
  revert legends drawn.
  induction gs as [|g rest IH]; intros legends drawn.
  - exists [], legends, drawn.
    split; [reflexivity|]. split; [done|]. split; [done|].
    split; [intros j g H | intros j g l H]; by rewrite lookup_nil in H.
  - simpl. destruct (groupLegend g) as [l0|] eqn:Hg.
    + destruct (IH (<[l0 := Some ("filter-group-" ++ suffix drawn)]> legends)
                  (S drawn))
        as (gs' & legends' & drawn' & -> & Hlen & Hkeep & Hnone & Hsome).
      eexists _, legends', drawn'. split; [reflexivity|].
      rewrite length_insert in Hlen. split; [exact Hlen|]. split; [|split].
      * intros l Hl. rewrite Hkeep.
        -- apply list_lookup_insert_ne. intros ->. by apply (Hl 0 g).
        -- intros j g' Hj. by apply (Hl (S j) g').
      * intros [|j] g' Hj Hg'; simpl in *.
        -- injection Hj as <-. congruence.
        -- by apply Hnone.
      * intros [|j] g' l Hj Hg'; simpl in *.
        -- injection Hj as <-. rewrite Hg in Hg'. injection Hg' as <-.
           exists drawn. split; [reflexivity|]. intros Hlt Hlater.
           rewrite Hkeep.
           ++ by apply list_lookup_insert_eq.
           ++ intros j g' Hj. apply (Hlater (S j) g'); [lia | exact Hj].
        -- destruct (Hsome j g' l Hj Hg') as (n & Hn & Hlegend).
           exists n. split; [exact Hn|]. intros Hlt Hlater.
           apply Hlegend; [by rewrite length_insert|].
           intros j' g'' Hjj' Hj'. apply (Hlater (S j') g''); [lia | exact Hj'].
    + destruct (IH legends drawn)
        as (gs' & legends' & drawn' & -> & Hlen & Hkeep & Hnone & Hsome).
      eexists _, legends', drawn'. split; [reflexivity|].
      split; [exact Hlen|]. split; [|split].
      * intros l Hl. apply Hkeep. intros j g' Hj. by apply (Hl (S j) g').
      * intros [|j] g' Hj Hg'; simpl in *; [done | by apply Hnone].
      * intros [|j] g' l Hj Hg'; simpl in *.
        -- injection Hj as <-. congruence.
        -- destruct (Hsome j g' l Hj Hg') as (n & Hn & Hlegend).
           exists n. split; [exact Hn|]. intros Hlt Hlater.
           apply Hlegend; [done|].
           intros j' g'' Hjj' Hj'. apply (Hlater (S j') g''); [lia | exact Hj'].
Qed.

End Labels.

(** X20: [setupAccessibility] gives every filter group that has a legend
    the role "group" and an [aria-labelledby] id of the form
    "filter-group-" followed by a random suffix, and the legend carries
    that id unless a later group has the same first legend; a group
    without a legend, and a legend that is the first legend of no group,
    stay as they are.  On the filter buttons and the live region a second
    set-up changes nothing, and a [tabindex] that a filter button already
    has is kept. *)
Theorem setupAccessibility_effects (pg : Page) :
  let pg' := setupAccessibility pg in
  controls (setupAccessibility pg') = controls pg' ∧
  liveRegion (setupAccessibility pg') = liveRegion pg' ∧
  is_Some (liveRegion pg') ∧
  (∀ j c t, controls pg !! j = Some c → tabindexAttr c = Some t →
            tabindexAttr <$> controls pg' !! j = Some (Some t)) ∧
  (∀ j g, groups (labelling pg) !! j = Some g → groupLegend g = None →
          groups (labelling pg') !! j = Some g) ∧
  (∀ j g l, groups (labelling pg) !! j = Some g → groupLegend g = Some l →
     ∃ n, groups (labelling pg') !! j
          = Some {| groupRole := Some "group";
                    groupLabelledBy :=
                      Some ("filter-group-" ++ randomSuffix (labelling pg) n);
                    groupLegend := Some l |} ∧
          ((l < length (legendIds (labelling pg)))%nat →
           (∀ j' g', (j < j')%nat → groups (labelling pg) !! j' = Some g' →
                     groupLegend g' ≠ Some l) →
           legendIds (labelling pg') !! l
           = Some (Some ("filter-group-" ++ randomSuffix (labelling pg) n)))) ∧
  (∀ l, (∀ j g, groups (labelling pg) !! j = Some g → groupLegend g ≠ Some l) →
        legendIds (labelling pg') !! l = legendIds (labelling pg) !! l).
Proof.
  intros pg'.
  destruct (labelGroups_spec (randomSuffix (labelling pg)) (groups (labelling pg))
              (legendIds (labelling pg)) (randomDrawn (labelling pg)))
    as (gs' & legends' & drawn' & Heq & _ & Hkeep & Hnone & Hsome).
  assert (groups (labelling pg') = gs' ∧ legendIds (labelling pg') = legends')
    as [Hgs Hls].
  { unfold pg', setupAccessibility, setupGroups; simpl. by rewrite Heq. }
  rewrite Hgs, Hls.
  split; [|split; [|split; [|split; [|split; [exact Hnone|split;
    [exact Hsome | exact Hkeep]]]]]].
  - unfold pg'; simpl. rewrite <- list_fmap_compose. apply list_fmap_ext.
    intros _ c _. apply setupButton_idemp.
  - unfold pg'; simpl. by destruct (liveRegion pg).
  - unfold pg'; simpl. by destruct (liveRegion pg).
  - intros j c t Hj Ht. unfold pg'; simpl. rewrite list_lookup_fmap, Hj. simpl.
    unfold setupButton. destruct (isFilterBtn c); simpl; by rewrite ?Ht.
Qed.

Lemma setupAccessibility_effects_witness :
  let pg' := setupAccessibility SamplePage.parts in
  groupLabelledBy <$> groups (labelling pg') !! 0
  = Some (Some "filter-group-0") ∧
  legendIds (labelling pg') !! 0 = Some (Some "filter-group-0") ∧
  ∃ n : nat, legendIds (labelling pg') !! 1
             = Some (Some ("filter-group-" ++ pretty n)).
Proof.
  intros pg'. split; [by vm_compute|]. split; [by vm_compute|].
  destruct (setupAccessibility_effects SamplePage.parts)
    as (_ & _ & _ & _ & _ & Hsome & _).
  destruct (Hsome 1 _ 1 eq_refl eq_refl) as (n & _ & Hlegend).
  exists n. apply Hlegend.
  - simpl. lia.
  - intros [|[|j']] g' Hlt Hj'; [lia|lia|]. discriminate Hj'.
Defined.

(** ** Displayed cards and the stored filters *)

Section Displayed.

Lemma uiStep_shownMatch (ui : Ui) (ev : UiEvent) :
  shownMatch (component ui) → shownMatch (component (uiStep ui ev)).
Proof.
  intros Hinv. destruct ev as [i|typed| | |i|]; simpl; try done.
  - unfold clickControl.
    destruct (controls (document ui) !! i) as [button|]; [|done].
    destruct (_ && _); [|done]. simpl.
    exact (step_shownMatch (component ui)
             (ClickFilter (dataFilter button) (dataValue button)) eq_refl Hinv).
  - unfold typeInSearchBox. by destruct (searchInput (component ui)).
  - unfold searchTimerElapsed, debouncedSearch; simpl.
    destruct (searchTimer ui); simpl; [|done].
    by apply handleSearch_shownMatch.
  - apply clearAllFilters_shownMatch.
  - intros c [].
Qed.

Lemma uiRun_shownMatch (evs : list UiEvent) (ui : Ui) :
  shownMatch (component ui) → shownMatch (component (uiRun evs ui)).
Proof.
  revert ui. induction evs as [|ev evs IH]; intros ui Hui; [done|].
  simpl. apply IH. by apply uiStep_shownMatch.
Qed.

End Displayed.

Section Alive.

Lemma uiStep_keeps_courses (ui : Ui) (ev : UiEvent) :
  destroys ev = false →
  courses (component (uiStep ui ev)) = courses (component ui).
Proof.
  intros Hev. destruct ev as [i|typed| | |i|]; simpl; try done.
  - unfold clickControl.
    destruct (controls (document ui) !! i) as [button|]; [|done].
    destruct (_ && _); [|done]. simpl. unfold handleFilterClick.
    destruct (dataFilter button), (dataValue button); try done.
    by destruct (_ && _).
  - unfold typeInSearchBox. by destruct (searchInput (component ui)).
  - unfold searchTimerElapsed, debouncedSearch; simpl.
    destruct (searchTimer ui); simpl; [|done].
    unfold handleSearch. by destruct (_ =? _).
Qed.

Lemma uiStep_keeps_cards (ui : Ui) (ev : UiEvent) :
  length (cardStyles (document (uiStep ui ev)))
  = length (cardStyles (document ui)).
Proof.
  destruct ev as [i|typed| | |i|]; simpl; try done.
  - unfold clickControl.
    destruct (controls (document ui) !! i) as [button|]; [|done].
    destruct (_ && _); [|done]. simpl. apply length_imap.
  - unfold typeInSearchBox. by destruct (searchInput (component ui)).
  - unfold searchTimerElapsed, debouncedSearch; simpl.
    destruct (searchTimer ui); simpl; [|done]. apply length_imap.
  - apply length_imap.
  - apply length_alter.
Qed.

Lemma uiRun_alive (evs : list UiEvent) (ui : Ui) :
  forallb (λ ev, negb (destroys ev)) evs = true →
  courses (component (uiRun evs ui)) = courses (component ui) ∧
  length (cardStyles (document (uiRun evs ui)))
  = length (cardStyles (document ui)).
Proof.
  revert ui. induction evs as [|ev evs IH]; intros ui Hevs; [done|].
  simpl in Hevs. apply andb_true_iff in Hevs as [Hev Hevs].
  apply negb_true_iff in Hev. simpl.
  destruct (IH (uiStep ui ev) Hevs) as [Hc Hl].
  by rewrite Hc, Hl, uiStep_keeps_courses, uiStep_keeps_cards.
Qed.

End Alive.

(** X21: on a page where every course has its card, and as long as the
    instance is not destroyed, whatever the user does (filter clicks,
    typing, the search timer, the clear button, hide timers), a card that
    is displayed with full opacity is the card of an item of the filtered
    list, and that item satisfies every stored dimension the way
    [applyFilters] compares them. *)
Theorem displayed_cards_satisfy_filters
    (cards : list Course) (box : option string) (pg : Page)
    (evs : list UiEvent) (i : nat) (s : CardStyle) :
  forallb (λ ev, negb (destroys ev)) evs = true →
  length (cardStyles pg) = length cards →
  let ui := uiRun evs (start cards box pg) in
  cardStyles (document ui) !! i = Some s →
  opacity s = "1" →
  ∃ c, cards !! i = Some c ∧
       courses (component ui) = cards ∧
       In c (filteredCourses (component ui)) ∧
       ∀ k v, filters (component ui) !! k = Some v → codeEntry c k v.
Proof.
  intros Hevs Hlen ui Hs Hop.
  destruct (uiRun_alive evs (start cards box pg) Hevs) as [Hcourses Hcards].
  fold ui in Hcourses, Hcards. simpl in Hcourses, Hcards.
  rewrite length_imap in Hcards.
  assert (is_Some (cards !! i)) as [c Hc].
  { apply lookup_lt_is_Some. rewrite <- Hlen, <- Hcards.
    by apply lookup_lt_Some in Hs. }
  exists c. split; [exact Hc|]. split; [exact Hcourses|].
  assert (courses (component ui) !! i = Some c) as Hci by (by rewrite Hcourses).
  pose proof (uiRun_viewAgrees evs _ (start_viewAgrees cards box pg) i c s Hci Hs)
    as Hview. fold ui in Hview.
  destruct (bool_decide_reflect (c ∈ filteredCourses (component ui)))
    as [Hin|_]; [|rewrite Hview in Hop; discriminate Hop].
  apply list_elem_of_In in Hin. split; [exact Hin|].
  intros k v Hkv. apply entryMatches_codeEntry.
  pose proof (uiRun_shownMatch evs (start cards box pg)
                (construct_shownMatch cards box)) as Hm. fold ui in Hm.
  exact (proj1 (courseMatches_lookup _ _) (Hm c Hin) k v Hkv).
Qed.

Lemma displayed_cards_satisfy_filters_witness :
  let ui := uiRun [ClickOn 1; TypeInBox "bus"; SearchTimerElapsed]
              (start Sample.page (Some "") SamplePage.parts) in
  filters (component ui) !! "level" = Some "beginner" ∧
  ∃ c, Sample.page !! 0 = Some c ∧ codeEntry c "level" "beginner".
Proof.
  intros ui.
  assert (filters (component ui) !! "level" = Some "beginner") as Hlevel
    by (by vm_compute).
  split; [exact Hlevel|].
  assert (∃ s, cardStyles (document ui) !! 0 = Some s ∧ opacity s = "1")
    as (s & Hs & Hop) by (eexists; by vm_compute).
  destruct (displayed_cards_satisfy_filters Sample.page (Some "")
              SamplePage.parts
              [ClickOn 1; TypeInBox "bus"; SearchTimerElapsed]
              0 s eq_refl eq_refl Hs Hop) as (c & Hc & _ & _ & Hall).
  exists c. split; [exact Hc|]. exact (Hall "level" "beginner" Hlevel).
Defined.
